(** * Stability-Of-Submoons: [utilities.py]

    A shallow embedding of the celestial-body data model and of the
    formulas of [utilities.py], with the properties its specification
    states about them.

    Conventions of the embedding.
    - Python floats are read as real numbers ([R]): arithmetic is exact,
      there is no rounding, overflow, infinity or NaN.  The partiality of
      Python's float operators is kept: [/] raises [ZeroDivisionError] on
      a zero divisor, [**] raises it on [0.0] with a negative exponent and
      leaves the floats (complex result) on a negative base with a
      fractional exponent.
    - Python ints (the hierarchy number) are [Z].
    - Objects live in a store addressed by allocation order; a variable
      holding a [CelestialBody] holds a location, so that two names for one
      body see each other's updates.
    - A call yields the warnings it emitted ([warnings.warn]) and either a
      value or the exception it raised. *)

From Stdlib Require Import Reals Lra ZArith Lia String.
From Stdlib Require Import Ascii DecimalString DecimalN DecimalFacts.
From stdpp Require Import base list.

Local Open Scope string_scope.
Local Open Scope Z_scope.
Local Open Scope R_scope.

(** ** Outcomes of a call *)

(** The texts of the [ValueError]s of the module, with the values their
    f-strings interpolate. *)
Inductive message : Type :=
  | StarHosted                                  (* check_if_direct_orbits, line 24 *)
  | TooFarApart (distance : Z)                  (* check_if_direct_orbits, lines 27-28 *)
  | NoGrandparent (hn : Z)                      (* lines 113-115 and 148-150 *)
  | HostMismatch (name : string) (err : message). (* CelestialBody.__init__, lines 329-330 *)

Inductive exn : Type :=
  | ValueError (m : message)
  | AttributeError            (* an attribute of [None] *)
  | TypeError                 (* arithmetic on [None] *)
  | ZeroDivisionError.

(** Where evaluation leaves what the embedding follows. *)
Inductive limit : Type :=
  | ComplexValue              (* negative base to a fractional power *)
  | DanglingReference.        (* a location that is not in the store *)

Inductive outcome (A : Type) : Type :=
  | Ok (v : A)
  | Raise (e : exn)
  | Beyond (w : limit).
Arguments Ok {A} v.
Arguments Raise {A} e.
Arguments Beyond {A} w.

(** Warnings emitted so far, oldest first, and the outcome. *)
Definition M (A : Type) : Type := (list string * outcome A)%type.

Definition ret {A} (v : A) : M A := ([], Ok v).
Definition raise {A} (e : exn) : M A := ([], Raise e).
Definition beyond {A} (w : limit) : M A := ([], Beyond w).
Definition raise_warning (text : string) : M unit := ([text], Ok tt).

Definition bind {A B} (m : M A) (f : A -> M B) : M B :=
  match m with
  | (w, Ok v) => let '(w', r) := f v in (app w w', r)
  | (w, Raise e) => (w, Raise e)
  | (w, Beyond l) => (w, Beyond l)
  end.

Notation "x <- m ;; f" := (bind m (fun x => f))
  (at level 100, m at next level, right associativity).
Notation "m ;;; f" := (bind m (fun _ => f))
  (at level 100, right associativity).

(** [try: m except ValueError as err: h err]. *)
Definition except_ValueError {A} (m : M A) (h : message -> M A) : M A :=
  match m with
  | (w, Raise (ValueError err)) => let '(w', r) := h err in (app w w', r)
  | other => other
  end.

(** ** Float arithmetic *)

(** [x / y] on floats. *)
Definition pydiv (x y : R) : M R :=
  if Req_dec_T y 0 then raise ZeroDivisionError else ret (x / y).

(** [x ** y] on floats (CPython's [float_pow]). *)
Definition pypow (x y : R) : M R :=
  if Rlt_dec 0 x then ret (Rpower x y)
  else if Req_dec_T y 0 then ret 1
  else if Req_dec_T x 0 then
    if Rlt_dec 0 y then ret 0 else raise ZeroDivisionError
  else if Req_dec_T y (IZR (Int_part y)) then ret (powerRZ x (Int_part y))
  else beyond ComplexValue.

(** [x * y] where [x] may be [None]. *)
Definition pymul_opt (x : option R) (y : R) : M R :=
  match x with
  | Some v => ret (v * y)
  | None => raise TypeError
  end.

(** [x ** y] where [x] may be [None]. *)
Definition pypow_opt (x : option R) (y : R) : M R :=
  match x with
  | Some v => pypow v y
  | None => raise TypeError
  end.

(** [numpy.round(x, decimals)]: scale, round half to even, scale back. *)
Definition rint (x : R) : Z :=
  let f := Int_part x in
  if Rlt_dec (frac_part x) (1 / 2) then f
  else if Rlt_dec (1 / 2) (frac_part x) then (f + 1)%Z
  else if Z.even f then f else (f + 1)%Z.

Definition np_round (x : R) (decimals : nat) : R :=
  IZR (rint (x * 10 ^ decimals)) / 10 ^ decimals.

(** [scipy.constants.G], the Newtonian constant of gravitation (CODATA). *)
Definition G : R := 6.6743e-11.

(** ** The data model *)

Abbreviation loc := nat.

(** The instance attributes [__init__] assigns. Its [inertial_moment]
    argument is not among them: the constructor never stores it. *)
Record CelestialBody : Type := mkBody {
  mass : R;
  rho : R;
  omega : R;
  k : R;
  Q : R;
  descriptive_index : string;
  name : string;
  hn : Z;
  hosting_body : option loc;
  a : option R
}.

Abbreviation store := (list CelestialBody).

Definition set_a (v : option R) (b : CelestialBody) : CelestialBody :=
  mkBody (mass b) (rho b) (omega b) (k b) (Q b) (descriptive_index b)
         (name b) (hn b) (hosting_body b) v.

Definition set_omega (v : R) (b : CelestialBody) : CelestialBody :=
  mkBody (mass b) (rho b) v (k b) (Q b) (descriptive_index b)
         (name b) (hn b) (hosting_body b) (a b).

Definition set_hosting_body (h : option loc) (b : CelestialBody) : CelestialBody :=
  mkBody (mass b) (rho b) (omega b) (k b) (Q b) (descriptive_index b)
         (name b) (hn b) h (a b).

(** Reading the attributes of the object a variable refers to. *)
Definition load (s : store) (l : loc) : M CelestialBody :=
  match s !! l with
  | Some b => ret b
  | None => beyond DanglingReference
  end.

(** The same for a variable that may hold [None]. *)
Definition load_opt (s : store) (o : option loc) : M CelestialBody :=
  match o with
  | Some l => load s l
  | None => raise AttributeError
  end.

(** ** The functions of the module *)

Definition check_if_direct_orbits (s : store)
    (hosting_body : option loc) (hosted_body : loc) : M unit :=
  hosted <- load s hosted_body ;;
  if (hn hosted =? 1)%Z then raise (ValueError StarHosted)
  else
    hosting <- load_opt s hosting_body ;;
    let distance := Z.abs (hn hosted - hn hosting) in
    if negb (distance =? 1)%Z then raise (ValueError (TooFarApart distance))
    else ret tt.

Definition get_standard_grav_parameter (s : store)
    (hosting_body : option loc) (hosted_body : loc)
    (check_direct_orbits : bool) : M R :=
  (if check_direct_orbits
   then check_if_direct_orbits s hosting_body hosted_body
   else ret tt) ;;;
  hosting <- load_opt s hosting_body ;;
  hosted <- load s hosted_body ;;
  ret (G * (mass hosting + mass hosted)).

Definition keplers_law_n_from_a (s : store)
    (hosting_body : option loc) (hosted_body : loc) : M R :=
  check_if_direct_orbits s hosting_body hosted_body ;;;
  mu <- get_standard_grav_parameter s hosting_body hosted_body false ;;
  p <- pypow mu (1 / 2) ;;
  hosted <- load s hosted_body ;;
  q <- pypow_opt (a hosted) (-3 / 2) ;;
  ret (p * q).

Definition keplers_law_n_from_a_simple (a mu : R) : M R :=
  p <- pypow mu (1 / 2) ;;
  q <- pypow a (-3 / 2) ;;
  ret (p * q).

(** The property [CelestialBody.n]. *)
Definition CelestialBody_n (s : store) (self : loc) : M R :=
  me <- load s self ;;
  keplers_law_n_from_a s (hosting_body me) self.

(** The arithmetic of [keplers_law_a_from_n] (line 70),
    [mu ** (1 / 3) * n ** (-2 / 3)], for a frequency obtained by [n]. *)
Definition a_from_n (mu : R) (n : M R) : M R :=
  p <- pypow mu (1 / 3) ;;
  freq <- n ;;
  q <- pypow freq (-2 / 3) ;;
  ret (p * q).

Definition keplers_law_a_from_n (s : store)
    (hosting_body : option loc) (hosted_body : loc) : M R :=
  check_if_direct_orbits s hosting_body hosted_body ;;;
  mu <- get_standard_grav_parameter s hosting_body hosted_body false ;;
  a_from_n mu (CelestialBody_n s hosted_body).

Definition hill_warning : string :=
  "WARNING: Can the hill-radius between the planet and star be defined?".

Definition get_hill_radius_relevant_to_body (s : store) (hosted_body : loc) : M R :=
  body <- load s hosted_body ;;
  if (hn body <=? 2)%Z then
    raise_warning hill_warning ;;;
    raise (ValueError (NoGrandparent (hn body)))
  else
    j <- load_opt s (hosting_body body) ;;
    i <- load_opt s (hosting_body j) ;;
    q <- pydiv (mass j) (3 * mass i) ;;
    p <- pypow q (1 / 3) ;;
    pymul_opt (a j) p.

Definition get_critical_semi_major_axis (s : store) (hosted_body : loc) : M R :=
  body <- load s hosted_body ;;
  f <- (if (hn body =? 3)%Z then ret 0.4
        else if (hn body =? 4)%Z then ret 0.33
        else raise_warning hill_warning ;;;
             raise (ValueError (NoGrandparent (hn body)))) ;;
  r_h <- get_hill_radius_relevant_to_body s hosted_body ;;
  ret (f * r_h).

(** The property [CelestialBody.R]. *)
Definition CelestialBody_R (s : store) (self : option loc) : M R :=
  me <- load_opt s self ;;
  v <- pydiv (3 * mass me) (rho me) ;;
  w <- pydiv v (4 * PI) ;;
  pypow w (1 / 3).

(** The property [CelestialBody.I]. *)
Definition CelestialBody_I (s : store) (self : option loc) : M R :=
  me <- load_opt s self ;;
  r <- CelestialBody_R s self ;;
  p <- pypow r 2 ;;
  ret (2 / 5 * mass me * p).

(** The property [CelestialBody.mu]. *)
Definition CelestialBody_mu (s : store) (self : loc) : M R :=
  me <- load s self ;;
  get_standard_grav_parameter s (hosting_body me) self false.

Definition get_roche_limit (s : store) (hosted_body : loc) : M R :=
  j <- load s hosted_body ;;
  let i := hosting_body j in
  r <- CelestialBody_R s (Some hosted_body) ;;
  host <- load_opt s i ;;
  q <- pydiv (3 * mass host) (mass j) ;;
  p <- pypow q (1 / 3) ;;
  ret (r * p).

Definition analytical_lifetime_one_tide (s : store) (a_0 a_c : R)
    (hosted_body : loc) : M R :=
  j <- load s hosted_body ;;
  let i := hosting_body j in
  p <- pypow a_c (13 / 2) ;;
  q <- pydiv a_0 a_c ;;
  p' <- pypow q (13 / 2) ;;
  let left_hand_side := 2 / 13 * p * (1 - p') in
  host <- load_opt s i ;;
  kq <- pydiv (3 * k host) (Q host) ;;
  gm <- pydiv G (mass host) ;;
  root <- pypow gm (1 / 2) ;;
  r <- CelestialBody_R s i ;;
  r5 <- pypow r 5 ;;
  let right_hand_side := kq * root * r5 * mass j in
  pydiv left_hand_side right_hand_side.

Definition get_a_derivative_factors_experimental (s : store)
    (hosted_body : loc) : M R :=
  j <- load s hosted_body ;;
  let i := hosting_body j in
  r <- CelestialBody_R s i ;;
  r5 <- pypow r 5 ;;
  mu <- CelestialBody_mu s hosted_body ;;
  root <- pypow mu (1 / 2) ;;
  host <- load_opt s i ;;
  pydiv (3 * r5 * root * k host * mass j) (Q host * mass host).

(** *** The class [CelestialBody] *)

(** [__init__]. The new object takes the next free location; it is in the
    store while the constructor runs, and the store of the caller gains it
    only when the constructor returns. *)
Definition CelestialBody_init (s : store)
    (mass density : R) (semi_major_axis : option R)
    (spin_frequency love_number quality_factor : R)
    (descriptive_index name : string) (hierarchy_number : Z)
    (hosting_body : option loc) (inertial_moment : R) : M (loc * store) :=
  let self := length s in
  let me := mkBody mass density spin_frequency love_number quality_factor
                   descriptive_index name hierarchy_number None None in
  if (hierarchy_number =? 1)%Z then
    ret (self, s ++ [me])%list
  else
    let me := set_a semi_major_axis me in
    except_ValueError
      (check_if_direct_orbits (s ++ [me])%list hosting_body self ;;;
       ret (self, s ++ [set_hosting_body hosting_body me])%list)
      (fun err => raise (ValueError (HostMismatch name err))).

Definition CelestialBody_update_semi_major_axis_a (s : store) (self : loc)
    (update_value : R) : store :=
  alter (set_a (Some update_value)) self s.

Definition CelestialBody_update_spin_frequency_omega (s : store) (self : loc)
    (update_value : R) : store :=
  alter (set_omega update_value) self s.

(** *** Time units *)

Definition seconds_warning : string :=
  "Something unexpected occured inside function `turn_seconds_to_years`.".

(** The result is a float or, when the function falls off its end, [None]. *)
Definition turn_seconds_to_years (seconds : R) (keyword : string) : M (option R) :=
  let conversion_factor := 3600 * 24 * 365 in
  seconds_in_years <- pydiv seconds conversion_factor ;;
  if String.eqb keyword "Vanilla" then
    ret (Some (np_round seconds_in_years 2))
  else if String.eqb keyword "Millions" then
    y <- pydiv seconds_in_years (10 ^ 6) ;;
    ret (Some (np_round y 2))
  else if String.eqb keyword "Billions" then
    y <- pydiv seconds_in_years (10 ^ 9) ;;
    ret (Some (np_round y 2))
  else
    raise_warning seconds_warning ;;;
    ret None.

(** ** Stores built through the class *)

(** The stores a program can reach: it starts with no body, constructs
    bodies and calls the two update methods. *)
Inductive reachable : store -> Prop :=
  | reachable_nil : reachable []
  | reachable_init s m d sma w kk q di nm h host im l s' :
      reachable s ->
      CelestialBody_init s m d sma w kk q di nm h host im = ([], Ok (l, s')) ->
      reachable s'
  | reachable_update_a s self v :
      reachable s ->
      reachable (CelestialBody_update_semi_major_axis_a s self v)
  | reachable_update_omega s self v :
      reachable s ->
      reachable (CelestialBody_update_spin_frequency_omega s self v).

(** What the constructor establishes about a body and its host. *)
Definition adjacent_host (s : store) (b : CelestialBody) : Prop :=
  if decide (hn b = 1%Z) then hosting_body b = None
  else exists h bh, hosting_body b = Some h /\ s !! h = Some bh /\
                    Z.abs (hn b - hn bh) = 1%Z.

Definition well_hosted (s : store) : Prop :=
  forall l b, s !! l = Some b -> adjacent_host s b.

(** The attribute ranges of the data model: positive mass, density, Love
    number and quality factor, and a positive semi-major axis on every body
    that is not a star. *)
Definition physical_body (b : CelestialBody) : Prop :=
  0 < mass b /\ 0 < rho b /\ 0 < k b /\ 0 < Q b /\
  (hn b <> 1%Z -> exists v, a b = Some v /\ 0 < v).

Definition physical (s : store) : Prop := Forall physical_body s.

(** ** The formulas as the specification words them *)

(** [meanRadius]: [(3*mass / (density * 4*pi))^(1/3)]. *)
Definition spec_meanRadius (b : CelestialBody) : R :=
  Rpower (3 * mass b / (rho b * (4 * PI))) (1 / 3).

(** [rocheLimit]: [hosted.meanRadius * (3 * host.mass / hosted.mass)^(1/3)]. *)
Definition spec_rocheLimit (hosted host : CelestialBody) : R :=
  spec_meanRadius hosted * Rpower (3 * mass host / mass hosted) (1 / 3).

(** [hillSphereRadius]: [j.semiMajorAxis * (j.mass / (3 * i.mass))^(1/3)]. *)
Definition spec_hillSphereRadius (a_j : R) (j i : CelestialBody) : R :=
  a_j * Rpower (mass j / (3 * mass i)) (1 / 3).

(** [analyticalOneTideLifetime]: [lhs / rhs]. *)
Definition spec_lifetime_lhs (a0 aTarget : R) : R :=
  2 / 13 * Rpower aTarget (13 / 2) * (1 - Rpower (a0 / aTarget) (13 / 2)).

Definition spec_lifetime_rhs (hosted host : CelestialBody) : R :=
  3 * k host / Q host * Rpower (G / mass host) (1 / 2) *
  spec_meanRadius host ^ 5 * mass hosted.

Definition spec_analyticalOneTideLifetime (a0 aTarget : R)
    (hosted host : CelestialBody) : R :=
  spec_lifetime_lhs a0 aTarget / spec_lifetime_rhs hosted host.

(** ** A four-level system *)

Definition sun : CelestialBody :=
  mkBody 1000 1 1 1 1 "s" "sun" 1 None None.
Definition earth : CelestialBody :=
  mkBody 100 1 1 1 1 "p" "earth" 2 (Some 0%nat) (Some 1000).
Definition moon : CelestialBody :=
  mkBody 10 1 1 1 1 "m" "moon" 3 (Some 1%nat) (Some 100).
Definition submoon : CelestialBody :=
  mkBody 1 1 1 1 1 "sm" "submoon" 4 (Some 2%nat) (Some 10).

Definition system : store := [sun; earth; moon; submoon].

(** Two moons of equal mass and density, one on each of two planets. *)
Definition giant : CelestialBody :=
  mkBody 200 1 1 1 1 "p" "giant" 2 (Some 0%nat) (Some 5000).
Definition far_moon : CelestialBody :=
  mkBody 10 1 1 1 1 "m" "far moon" 3 (Some 4%nat) (Some 100).

Definition twin_system : store := [sun; earth; moon; submoon; giant; far_moon].

(** The four-level system with a body of level 5 on its submoon. *)
Definition deeper : CelestialBody :=
  mkBody 1 1 1 1 1 "x" "deeper" 5 (Some 3%nat) (Some 1).

Definition deep_system : store := [sun; earth; moon; submoon; deeper].

(** [get_a_factors] is another name of
    [get_a_derivative_factors_experimental]. *)
Definition get_a_factors : store -> loc -> M R :=
  get_a_derivative_factors_experimental.

(** The body reached from [l] by following [hosting_body] [n] times. *)
Fixpoint ancestor (s : store) (n : nat) (l : loc) : option loc :=
  match n with
  | O => Some l
  | S n' =>
      match s !! l with
      | Some b =>
          match hosting_body b with
          | Some h => ancestor s n' h
          | None => None
          end
      | None => None
      end
  end.

(** ** The catalogue reader

    Of [get_solar_system_bodies_data], which reads a table with [pandas],
    the two parts that are plain Python: the nested function
    [turn_to_float_if_possible] and the choice of the column. Strings are
    read as ASCII text. *)

(** The values a cell of the table can hold. *)
Inductive pyval : Type :=
  | PyFloat (x : R)           (* [float], [numpy.float64] *)
  | PyInt (n : Z)             (* [int], [numpy.int64] *)
  | PyBool (b : bool)         (* [bool], a subclass of [int] *)
  | PyStr (t : string)
  | PyNone
  | PyOther.                  (* any other object *)

(** [x.replace(".", "", 1)]. *)
Fixpoint replace_first_point (x : string) : string :=
  match x with
  | EmptyString => EmptyString
  | String c rest =>
      if (c =? ".")%char then rest else String c (replace_first_point rest)
  end.

(** [x.isdigit()]: not empty, decimal digits only. *)
Definition isdigit (x : string) : bool :=
  match x with
  | EmptyString => false
  | _ => match NilEmpty.uint_of_string x with Some _ => true | None => false end
  end.

(** The number a string of digits writes. *)
Definition digits_value (x : string) : N :=
  match NilEmpty.uint_of_string x with
  | Some d => N.of_uint d
  | None => 0%N
  end.

Fixpoint before_point (x : string) : string :=
  match x with
  | EmptyString => EmptyString
  | String c rest =>
      if (c =? ".")%char then EmptyString else String c (before_point rest)
  end.

Fixpoint after_point (x : string) : string :=
  match x with
  | EmptyString => EmptyString
  | String c rest => if (c =? ".")%char then rest else after_point rest
  end.

(** [float(x)] on the strings the function passes to it: digits with at
    most one point among them. *)
Definition float_of_decimal (x : string) : R :=
  IZR (Z.of_N (digits_value (before_point x))) +
  IZR (Z.of_N (digits_value (after_point x))) / 10 ^ String.length (after_point x).

Definition catalogue_warning : string :=
  "Unexpected situation arisen inside function `get_solar_system_bodies_data`.".

Definition turn_to_float_if_possible (x : pyval) : M pyval :=
  match x with
  | PyFloat _ | PyInt _ | PyBool _ => ret x
  | PyStr t =>
      let represents_digit := isdigit (replace_first_point t) in
      if represents_digit then ret (PyFloat (float_of_decimal t)) else ret x
  | PyNone | PyOther => raise_warning catalogue_warning ;;; ret PyNone
  end.






(** ** Updates seen from the readers *)

(** The object at [l] after the object at [self] went through [f]. *)
Definition touched (f : CelestialBody -> CelestialBody) (self l : loc)
    (b : CelestialBody) : CelestialBody :=
  if decide (l = self) then f b else b.

(** * Properties *)

(** ** Calculation rules *)

Lemma bind_ret {A B} (v : A) (f : A -> M B) : bind (ret v) f = f v.
Proof. unfold bind, ret. destruct (f v); reflexivity. Qed.

Lemma bind_raise {A B} (e : exn) (f : A -> M B) : bind (raise e) f = raise e.
Proof. reflexivity. Qed.

Lemma bind_beyond {A B} (w : limit) (f : A -> M B) : bind (beyond w) f = beyond w.
Proof. reflexivity. Qed.

Lemma pydiv_nonzero (x y : R) : y <> 0 -> pydiv x y = ret (x / y).
Proof. intros Hy. unfold pydiv. destruct (Req_dec_T y 0); [contradiction | reflexivity]. Qed.

Lemma pydiv_zero (x : R) : pydiv x 0 = raise ZeroDivisionError.
Proof. unfold pydiv. destruct (Req_dec_T 0 0); [reflexivity | contradiction]. Qed.

Lemma pypow_pos (x y : R) : 0 < x -> pypow x y = ret (Rpower x y).
Proof. intros Hx. unfold pypow. destruct (Rlt_dec 0 x); [reflexivity | contradiction]. Qed.

Lemma pypow_zero (y : R) : 0 < y -> pypow 0 y = ret 0.
Proof.
  intros Hy. unfold pypow.
  destruct (Rlt_dec 0 0); [lra |].
  destruct (Req_dec_T y 0); [lra |].
  destruct (Req_dec_T 0 0); [| contradiction].
  destruct (Rlt_dec 0 y); [reflexivity | contradiction].
Qed.

Lemma Rpower_pos (x y : R) : 0 < Rpower x y.
Proof. unfold Rpower. apply exp_pos. Qed.

Lemma load_Some (s : store) (l : loc) (b : CelestialBody) :
  s !! l = Some b -> load s l = ret b.
Proof. intros H. unfold load. rewrite H. reflexivity. Qed.

Lemma load_opt_Some (s : store) (l : loc) (b : CelestialBody) :
  s !! l = Some b -> load_opt s (Some l) = ret b.
Proof. apply load_Some. Qed.

(** [check_if_direct_orbits] on a hosted body that is in the store. *)
Lemma check_if_direct_orbits_eq (s : store) (hosting : option loc)
    (hosted : loc) (bc : CelestialBody) :
  s !! hosted = Some bc ->
  check_if_direct_orbits s hosting hosted =
    if (hn bc =? 1)%Z then raise (ValueError StarHosted)
    else match hosting with
         | None => raise AttributeError
         | Some h =>
             match s !! h with
             | None => beyond DanglingReference
             | Some bp =>
                 if (Z.abs (hn bc - hn bp) =? 1)%Z then ret tt
                 else raise (ValueError (TooFarApart (Z.abs (hn bc - hn bp))))
             end
         end.
Proof.
  intros Hc. unfold check_if_direct_orbits.
  rewrite (load_Some _ _ _ Hc), bind_ret.
  destruct (hn bc =? 1)%Z; [reflexivity |].
  destruct hosting as [h |]; simpl; [| reflexivity].
  unfold load. destruct (s !! h) as [bp |]; [| reflexivity].
  rewrite bind_ret. destruct (Z.abs (hn bc - hn bp) =? 1)%Z; reflexivity.
Qed.

(** The constructor on a star. *)
Lemma init_star (s : store) m d sma w kk q di nm host im :
  CelestialBody_init s m d sma w kk q di nm 1 host im =
    ret (length s, (s ++ [mkBody m d w kk q di nm 1 None None])%list).
Proof. reflexivity. Qed.

(** The constructor on any other body whose host is in the store. *)
Lemma init_hosted (s : store) m d sma w kk q di nm h host bh im :
  h <> 1%Z -> s !! host = Some bh ->
  CelestialBody_init s m d sma w kk q di nm h (Some host) im =
    if (Z.abs (h - hn bh) =? 1)%Z
    then ret (length s, (s ++ [mkBody m d w kk q di nm h (Some host) sma])%list)
    else raise (ValueError (HostMismatch nm (TooFarApart (Z.abs (h - hn bh))))).
Proof.
  intros Hh Hhost. unfold CelestialBody_init.
  destruct (Z.eqb_spec h 1) as [-> | _]; [contradiction |].
  rewrite (check_if_direct_orbits_eq _ _ _ (set_a sma (mkBody m d w kk q di nm h None None))).
  2:{ rewrite lookup_app_r by reflexivity. rewrite Nat.sub_diag. reflexivity. }
  cbn [set_a hn].
  destruct (Z.eqb_spec h 1) as [-> | _]; [contradiction |].
  rewrite (lookup_app_l_Some _ _ _ _ Hhost).
  destruct (Z.abs (h - hn bh) =? 1)%Z; reflexivity.
Qed.

(** What a successful construction tells. *)
Lemma init_Ok_inv (s : store) m d sma w kk q di nm h host im ws l s' :
  CelestialBody_init s m d sma w kk q di nm h host im = (ws, Ok (l, s')) ->
  l = length s /\
  ((h = 1%Z /\ s' = (s ++ [mkBody m d w kk q di nm 1 None None])%list) \/
   (h <> 1%Z /\ exists lh bh,
      host = Some lh /\ s !! lh = Some bh /\ Z.abs (h - hn bh) = 1%Z /\
      s' = (s ++ [mkBody m d w kk q di nm h (Some lh) sma])%list)).
Proof.
  destruct (Z.eq_dec h 1%Z) as [-> | Hh].
  - rewrite init_star. intros [= _ <- <-]. split; [reflexivity | left; split; reflexivity].
  - unfold CelestialBody_init.
    destruct (Z.eqb_spec h 1) as [? | _]; [contradiction |].
    rewrite (check_if_direct_orbits_eq _ _ _ (set_a sma (mkBody m d w kk q di nm h None None))).
    2:{ rewrite lookup_app_r by reflexivity. rewrite Nat.sub_diag. reflexivity. }
    cbn [set_a hn].
    destruct (Z.eqb_spec h 1) as [? | _]; [contradiction |].
    destruct host as [lh |]; [| discriminate].
    destruct (_ !! lh) as [bp |] eqn:Hlh; [| discriminate].
    destruct (Z.eqb_spec (Z.abs (h - hn bp)) 1) as [Hd | Hd]; [| discriminate].
    intros [= _ <- <-]. split; [reflexivity |]. right. split; [assumption |].
    apply lookup_snoc_Some in Hlh as [[_ Hlh] | [_ <-]].
    + exists lh, bp. repeat split; assumption.
    + cbn [hn] in Hd. rewrite Z.sub_diag in Hd. discriminate.
Qed.

Lemma adjacent_host_snoc (s : store) (b x : CelestialBody) :
  adjacent_host s b -> adjacent_host (s ++ [x]) b.
Proof.
  unfold adjacent_host. destruct (decide (hn b = 1%Z)); [trivial |].
  intros (h & bh & Hb & Hh & Hd). exists h, bh.
  repeat split; try assumption. apply lookup_app_l_Some. assumption.
Qed.

Lemma well_hosted_init (s : store) m d sma w kk q di nm h host im ws l s' :
  well_hosted s ->
  CelestialBody_init s m d sma w kk q di nm h host im = (ws, Ok (l, s')) ->
  well_hosted s'.
Proof.
  intros Hs Hinit. apply init_Ok_inv in Hinit as [_ Hinit].
  assert (Hnew : exists b, s' = (s ++ [b])%list /\ adjacent_host s' b).
  { destruct Hinit as [[-> ->] | (Hh & lh & bh & -> & Hlh & Hd & ->)];
      eexists; (split; [reflexivity |]); unfold adjacent_host; cbn [hn hosting_body].
    - destruct (decide (1 = 1)%Z); [reflexivity | contradiction].
    - destruct (decide (h = 1%Z)); [contradiction |].
      exists lh, bh. repeat split; try assumption.
      apply lookup_app_l_Some. assumption. }
  destruct Hnew as (b & -> & Hb). intros l' b' Hl'.
  apply lookup_snoc_Some in Hl' as [[_ Hl'] | [_ <-]]; [| assumption].
  apply adjacent_host_snoc. exact (Hs _ _ Hl').
Qed.

(** An update that keeps the hierarchy number and the host of every body
    keeps the store well hosted. *)
Lemma well_hosted_alter (f : CelestialBody -> CelestialBody) (s : store) (self : loc) :
  (forall b, hn (f b) = hn b) ->
  (forall b, hosting_body (f b) = hosting_body b) ->
  well_hosted s -> well_hosted (alter f self s).
Proof.
  intros Hhn Hhost Hs.
  assert (Hlook : forall l b', alter f self s !! l = Some b' ->
            exists b, s !! l = Some b /\ hn b' = hn b /\ hosting_body b' = hosting_body b).
  { intros l b'. rewrite list_lookup_alter. case_decide as Heq.
    - subst l. destruct (s !! self) as [b |]; cbn; [| discriminate].
      intros [= <-]. eauto.
    - intros H. eauto. }
  intros l b' Hl. destruct (Hlook _ _ Hl) as (b & Hb & Hn & Hh).
  specialize (Hs _ _ Hb). unfold adjacent_host in *.
  rewrite Hn, Hh. destruct (decide (hn b = 1%Z)); [assumption |].
  destruct Hs as (h & bh & Hbh & Hsh & Hd).
  assert (Hh' : exists bh', alter f self s !! h = Some bh' /\ hn bh' = hn bh).
  { rewrite list_lookup_alter. case_decide as Heq.
    - subst h. rewrite Hsh. cbn. eexists. split; [reflexivity | apply Hhn].
    - eauto. }
  destruct Hh' as (bh' & Hbh' & Hn').
  exists h, bh'. rewrite Hn'. repeat split; assumption.
Qed.

Lemma reachable_well_hosted (s : store) : reachable s -> well_hosted s.
Proof.
  induction 1 as [| s m d sma w kk q di nm h host im l s' _ IH Hinit
                  | s self v _ IH | s self v _ IH].
  - intros l b Hl. discriminate.
  - eapply well_hosted_init; eassumption.
  - apply well_hosted_alter; [reflexivity | reflexivity | assumption].
  - apply well_hosted_alter; [reflexivity | reflexivity | assumption].
Qed.

(** ** The four-level system

    The system is what four constructor calls, top down, build. *)
Lemma system_reachable : reachable system.
Proof.
  assert (H1 : reachable [sun]).
  { exact (reachable_init [] 1000 1 None 1 1 1 "s" "sun" 1 None 0 _ _
             reachable_nil eq_refl). }
  assert (H2 : reachable [sun; earth]).
  { exact (reachable_init _ 100 1 (Some 1000) 1 1 1 "p" "earth" 2 (Some 0%nat) 0 _ _
             H1 eq_refl). }
  assert (H3 : reachable [sun; earth; moon]).
  { exact (reachable_init _ 10 1 (Some 100) 1 1 1 "m" "moon" 3 (Some 1%nat) 0 _ _
             H2 eq_refl). }
  exact (reachable_init _ 1 1 (Some 10) 1 1 1 "sm" "submoon" 4 (Some 2%nat) 0 _ _
           H3 eq_refl).
Qed.

Lemma system_physical : physical system.
Proof.
  unfold physical, system.
  repeat apply Forall_cons_2; try apply Forall_nil_2;
    unfold physical_body; cbn; repeat split; try lra;
    intros Hn; first [ now (exfalso; apply Hn) | eexists; split; [reflexivity | lra] ].
Qed.

(** ** Hierarchy validation *)

(** C4. For two bodies with hierarchy levels [p] (hosting) and [c] (hosted),
    [check_if_direct_orbits] returns normally exactly when [c <> 1] and
    [|c - p| = 1]; in every other case it raises a [ValueError]. Either way
    it emits no warning, and, reading the store without returning one, it
    leaves both bodies as they were. *)
Theorem check_if_direct_orbits_spec (s : store) (hosting hosted : loc)
    (bp bc : CelestialBody) :
  s !! hosting = Some bp ->
  s !! hosted = Some bc ->
  (check_if_direct_orbits s (Some hosting) hosted = ([], Ok tt) <->
     hn bc <> 1%Z /\ Z.abs (hn bc - hn bp) = 1%Z) /\
  (~ (hn bc <> 1%Z /\ Z.abs (hn bc - hn bp) = 1%Z) ->
     exists m, check_if_direct_orbits s (Some hosting) hosted =
               ([], Raise (ValueError m))).
Proof.
  intros Hp Hc. rewrite (check_if_direct_orbits_eq _ _ _ _ Hc), Hp.
  destruct (Z.eqb_spec (hn bc) 1) as [H1 | H1].
  - split.
    + split; [discriminate | intros [Hne _]; contradiction].
    + intros _. eexists. reflexivity.
  - destruct (Z.eqb_spec (Z.abs (hn bc - hn bp)) 1) as [Hd | Hd].
    + split.
      * split; [intros _; split; assumption | reflexivity].
      * intros Hn. exfalso. apply Hn. split; assumption.
    + split.
      * split; [discriminate | intros [_ Hd']; contradiction].
      * intros _. eexists. reflexivity.
Qed.

Lemma check_if_direct_orbits_spec_witness :
  (check_if_direct_orbits system (Some 1%nat) 2%nat = ([], Ok tt) <->
     hn moon <> 1%Z /\ Z.abs (hn moon - hn earth) = 1%Z) /\
  (~ (hn moon <> 1%Z /\ Z.abs (hn moon - hn earth) = 1%Z) ->
     exists m, check_if_direct_orbits system (Some 1%nat) 2%nat =
               ([], Raise (ValueError m))).
Proof.
  apply (check_if_direct_orbits_spec system 1%nat 2%nat earth moon); reflexivity.
Defined.

(** ** Construction *)

(** C9. A constructor call with hierarchy number 1 returns a body without
    host and without semi-major axis, whatever [hosting_body] and
    [semi_major_axis] it was given; the host is never looked at, so the call
    succeeds on every host argument. *)
Theorem star_has_no_host_no_axis (s : store) (m d : R) (sma : option R)
    (w kk q : R) (di nm : string) (host : option loc) (im : R) :
  exists b : CelestialBody,
    CelestialBody_init s m d sma w kk q di nm 1 host im =
      ([], Ok (length s, (s ++ [b])%list)) /\
    hosting_body b = None /\ a b = None /\ hn b = 1%Z.
Proof.
  exists (mkBody m d w kk q di nm 1 None None).
  rewrite init_star. repeat split; reflexivity.
Qed.

(** C1, as the code has it. In a store built through the class, every body
    that is not a star has a host whose hierarchy number differs from its
    own by exactly one, in either direction. The constructor of such a body,
    given a host of the store, succeeds exactly when the two numbers differ
    by one, and then appends the body with that host; otherwise it raises
    the [ValueError] that wraps the one of [check_if_direct_orbits], and the
    store of the caller is left without a new body. Without a host it
    raises an [AttributeError]. *)
Theorem adjacency_at_construction (s : store) :
  reachable s ->
  (forall l b, s !! l = Some b -> hn b <> 1%Z ->
     exists h bh, hosting_body b = Some h /\ s !! h = Some bh /\
                  Z.abs (hn b - hn bh) = 1%Z) /\
  (forall m d sma w kk q di nm h host bh im,
     h <> 1%Z -> s !! host = Some bh ->
     CelestialBody_init s m d sma w kk q di nm h (Some host) im =
       if (Z.abs (h - hn bh) =? 1)%Z
       then ([], Ok (length s,
                     (s ++ [mkBody m d w kk q di nm h (Some host) sma])%list))
       else ([], Raise (ValueError
                   (HostMismatch nm (TooFarApart (Z.abs (h - hn bh))))))) /\
  (forall m d sma w kk q di nm h im,
     h <> 1%Z ->
     CelestialBody_init s m d sma w kk q di nm h None im =
       ([], Raise AttributeError)).
Proof.
  intros Hs. split; [| split].
  - intros l b Hl Hn. pose proof (reachable_well_hosted _ Hs _ _ Hl) as Hb.
    unfold adjacent_host in Hb.
    destruct (decide (hn b = 1%Z)); [contradiction | assumption].
  - intros. apply init_hosted; assumption.
  - intros m d sma w kk q di nm h im Hh. unfold CelestialBody_init.
    destruct (Z.eqb_spec h 1) as [? | _]; [contradiction |].
    rewrite (check_if_direct_orbits_eq _ _ _
               (set_a sma (mkBody m d w kk q di nm h None None))).
    2:{ rewrite lookup_app_r by reflexivity. rewrite Nat.sub_diag. reflexivity. }
    cbn [set_a hn]. destruct (Z.eqb_spec h 1) as [? | _]; [contradiction |].
    reflexivity.
Qed.

Lemma adjacency_at_construction_witness :
  (forall l b, system !! l = Some b -> hn b <> 1%Z ->
     exists h bh, hosting_body b = Some h /\ system !! h = Some bh /\
                  Z.abs (hn b - hn bh) = 1%Z) /\
  (forall m d sma w kk q di nm h host bh im,
     h <> 1%Z -> system !! host = Some bh ->
     CelestialBody_init system m d sma w kk q di nm h (Some host) im =
       if (Z.abs (h - hn bh) =? 1)%Z
       then ([], Ok (length system,
                     (system ++ [mkBody m d w kk q di nm h (Some host) sma])%list))
       else ([], Raise (ValueError
                   (HostMismatch nm (TooFarApart (Z.abs (h - hn bh))))))) /\
  (forall m d sma w kk q di nm h im,
     h <> 1%Z ->
     CelestialBody_init system m d sma w kk q di nm h None im =
       ([], Raise AttributeError)).
Proof. exact (adjacency_at_construction system system_reachable). Defined.

(** C1, as stated, fails: a body of level 2 is constructed on the moon of
    the system, a host of level 3, one greater than its own and not
    [2 - 1]. *)
Lemma host_one_level_above_accepted :
  CelestialBody_init system 100 1 (Some 1000) 1 1 1 "p" "planet" 2 (Some 2%nat) 0 =
    ([], Ok (4%nat,
             (system ++ [mkBody 100 1 1 1 1 "p" "planet" 2 (Some 2%nat) (Some 1000)])%list)) /\
  hn <$> system !! 2%nat = Some 3%Z /\
  (3 <> 2 - 1)%Z.
Proof. split; [reflexivity | split; [reflexivity | lia]]. Qed.

(** C3, as stated, fails: a body of level 5 is constructed on the submoon
    of the system. *)
Lemma level_five_constructed :
  CelestialBody_init system 1 1 (Some 1) 1 1 1 "x" "deeper" 5 (Some 3%nat) 0 =
    ([], Ok (4%nat,
             (system ++ [mkBody 1 1 1 1 1 "x" "deeper" 5 (Some 3%nat) (Some 1)])%list)) /\
  reachable (system ++ [mkBody 1 1 1 1 1 "x" "deeper" 5 (Some 3%nat) (Some 1)])%list /\
  ~ (1 <= 5 <= 4)%Z.
Proof.
  split; [reflexivity | split; [| lia]].
  exact (reachable_init _ 1 1 (Some 1) 1 1 1 "x" "deeper" 5 (Some 3%nat) 0 _ _
           system_reachable eq_refl).
Qed.

(** From a body of a reachable store, a body one level away is constructed. *)
Lemma next_level_constructible (s : store) (l : loc) (b : CelestialBody) (n : Z) :
  reachable s -> s !! l = Some b -> n <> 1%Z -> Z.abs (n - hn b) = 1%Z ->
  exists s' l' b', reachable s' /\ s' !! l' = Some b' /\ hn b' = n.
Proof.
  intros Hs Hl Hn Hd.
  pose proof (init_hosted s 1 1 None 0 1 1 "" "" n l b 0 Hn Hl) as Hinit.
  rewrite (proj2 (Z.eqb_eq _ _) Hd) in Hinit.
  eexists _, (length s), _. split; [| split].
  - eapply reachable_init; eassumption.
  - rewrite lookup_app_r by reflexivity. rewrite Nat.sub_diag. reflexivity.
  - reflexivity.
Qed.

(** C3, as the code has it. The constructor puts no bound on the hierarchy
    number: for every integer there is a store built through the class with
    a body of that level; and on a host whose level is one away, the
    constructor succeeds and returns a body of the level asked for, whatever
    that level is. *)
Theorem hierarchy_level_unbounded :
  (forall n : Z, exists (s : store) (l : loc) (b : CelestialBody),
     reachable s /\ s !! l = Some b /\ hn b = n) /\
  (forall (s : store) m d sma w kk q di nm h host bh im,
     s !! host = Some bh -> Z.abs (h - hn bh) = 1%Z ->
     exists l s',
       CelestialBody_init s m d sma w kk q di nm h (Some host) im =
         ([], Ok (l, s')) /\
       hn <$> s' !! l = Some h).
Proof.
  split.
  - assert (Hup : forall i : nat, exists s l b,
              reachable s /\ s !! l = Some b /\ hn b = (1 + Z.of_nat i)%Z).
    { induction i as [| i (s & l & b & Hs & Hl & Hb)].
      - exists [sun], 0%nat, sun. split; [| split; reflexivity].
        exact (reachable_init [] 1000 1 None 1 1 1 "s" "sun" 1 None 0 _ _
                 reachable_nil eq_refl).
      - apply (next_level_constructible s l b); try assumption; lia. }
    assert (Hdown : forall i : nat, exists s l b,
              reachable s /\ s !! l = Some b /\ hn b = (1 - Z.of_nat i)%Z).
    { induction i as [| i (s & l & b & Hs & Hl & Hb)].
      - destruct (Hup 0%nat) as (s & l & b & Hs & Hl & Hb).
        exists s, l, b. repeat split; first [assumption | lia].
      - apply (next_level_constructible s l b); try assumption; lia. }
    intros n. destruct (Z.le_gt_cases 1 n) as [Hle | Hgt].
    + destruct (Hup (Z.to_nat (n - 1))) as (s & l & b & Hs & Hl & Hb).
      exists s, l, b. repeat split; first [assumption | lia].
    + destruct (Hdown (Z.to_nat (1 - n))) as (s & l & b & Hs & Hl & Hb).
      exists s, l, b. repeat split; first [assumption | lia].
  - intros s m d sma w kk q di nm h host bh im Hhost Hd.
    exists (length s). destruct (Z.eq_dec h 1%Z) as [-> | Hh].
    + eexists. rewrite init_star. split; [reflexivity |].
      rewrite lookup_app_r by reflexivity. rewrite Nat.sub_diag. reflexivity.
    + eexists. rewrite (init_hosted _ _ _ _ _ _ _ _ _ _ _ _ _ Hh Hhost).
      rewrite (proj2 (Z.eqb_eq _ _) Hd). split; [reflexivity |].
      rewrite lookup_app_r by reflexivity. rewrite Nat.sub_diag. reflexivity.
Qed.

(** ** The two update methods *)

Lemma lookup_alter_Some (f : CelestialBody -> CelestialBody) (s : store)
    (self l : loc) (b : CelestialBody) :
  s !! l = Some b ->
  alter f self s !! l = Some (if decide (l = self) then f b else b).
Proof.
  intros Hl. rewrite list_lookup_alter.
  destruct (decide (l = self)) as [-> | Hne].
  - rewrite decide_True by reflexivity. rewrite Hl. reflexivity.
  - rewrite decide_False by congruence. assumption.
Qed.

(** The derived radius and moment of inertia read mass and density only. *)
Lemma CelestialBody_R_alter (f : CelestialBody -> CelestialBody) (s : store)
    (self : loc) (o : option loc) :
  (forall b, mass (f b) = mass b) -> (forall b, rho (f b) = rho b) ->
  CelestialBody_R (alter f self s) o = CelestialBody_R s o.
Proof.
  intros Hm Hr. destruct o as [l |]; [| reflexivity].
  unfold CelestialBody_R, load_opt, load.
  destruct (s !! l) as [b |] eqn:Hl.
  - rewrite (lookup_alter_Some f _ self _ _ Hl). rewrite !bind_ret.
    destruct (decide (l = self)); [rewrite Hm, Hr |]; reflexivity.
  - rewrite list_lookup_alter. case_decide as Heq.
    + subst l. rewrite Hl. reflexivity.
    + rewrite Hl. reflexivity.
Qed.

Lemma CelestialBody_I_alter (f : CelestialBody -> CelestialBody) (s : store)
    (self : loc) (o : option loc) :
  (forall b, mass (f b) = mass b) -> (forall b, rho (f b) = rho b) ->
  CelestialBody_I (alter f self s) o = CelestialBody_I s o.
Proof.
  intros Hm Hr. unfold CelestialBody_I. rewrite (CelestialBody_R_alter f s self o Hm Hr).
  destruct o as [l |]; [| reflexivity].
  unfold load_opt, load.
  destruct (s !! l) as [b |] eqn:Hl.
  - rewrite (lookup_alter_Some f _ self _ _ Hl). rewrite !bind_ret.
    destruct (decide (l = self)); [rewrite Hm |]; reflexivity.
  - rewrite list_lookup_alter. case_decide as Heq.
    + subst l. rewrite Hl. reflexivity.
    + rewrite Hl. reflexivity.
Qed.

(** C10. [update_semi_major_axis_a] changes the attribute [a] of the body
    it is called on and nothing else, [update_spin_frequency_omega] its
    [omega] and nothing else: every other attribute of that body, and every
    attribute of every other body, is as before, no body appears or
    disappears, and the derived moment of inertia is the same. (The
    [inertial_moment] given to the constructor is not kept in the body.) A
    later constructor call leaves the bodies that exist as they are; the
    remaining functions only read the store. *)
Theorem updates_frame (s : store) (self l : loc) (v : R) (b : CelestialBody) :
  s !! l = Some b ->
  (exists b',
     CelestialBody_update_semi_major_axis_a s self v !! l = Some b' /\
     a b' = (if decide (l = self) then Some v else a b) /\
     mass b' = mass b /\ rho b' = rho b /\ omega b' = omega b /\
     k b' = k b /\ Q b' = Q b /\ descriptive_index b' = descriptive_index b /\
     name b' = name b /\ hn b' = hn b /\ hosting_body b' = hosting_body b) /\
  (exists b',
     CelestialBody_update_spin_frequency_omega s self v !! l = Some b' /\
     omega b' = (if decide (l = self) then v else omega b) /\
     mass b' = mass b /\ rho b' = rho b /\ a b' = a b /\
     k b' = k b /\ Q b' = Q b /\ descriptive_index b' = descriptive_index b /\
     name b' = name b /\ hn b' = hn b /\ hosting_body b' = hosting_body b) /\
  length (CelestialBody_update_semi_major_axis_a s self v) = length s /\
  length (CelestialBody_update_spin_frequency_omega s self v) = length s /\
  CelestialBody_I (CelestialBody_update_semi_major_axis_a s self v) (Some l) =
    CelestialBody_I s (Some l) /\
  CelestialBody_I (CelestialBody_update_spin_frequency_omega s self v) (Some l) =
    CelestialBody_I s (Some l) /\
  (forall m d sma w kk q di nm h host im ws l' s',
     CelestialBody_init s m d sma w kk q di nm h host im = (ws, Ok (l', s')) ->
     s' !! l = Some b).
Proof.
  intros Hl. unfold CelestialBody_update_semi_major_axis_a,
    CelestialBody_update_spin_frequency_omega.
  repeat split.
  - eexists. split; [apply lookup_alter_Some; exact Hl |].
    destruct (decide (l = self)); repeat split; reflexivity.
  - eexists. split; [apply lookup_alter_Some; exact Hl |].
    destruct (decide (l = self)); repeat split; reflexivity.
  - apply length_alter.
  - apply length_alter.
  - apply CelestialBody_I_alter; reflexivity.
  - apply CelestialBody_I_alter; reflexivity.
  - intros m d sma w kk q di nm h host im ws l' s' Hinit.
    apply init_Ok_inv in Hinit as [_ [[_ ->] | (_ & lh & bh & _ & _ & _ & ->)]];
      apply lookup_app_l_Some; exact Hl.
Qed.

Lemma updates_frame_witness :
  (exists b',
     CelestialBody_update_semi_major_axis_a system 2%nat 120 !! 2%nat = Some b' /\
     a b' = Some 120 /\
     mass b' = mass moon /\ rho b' = rho moon /\ omega b' = omega moon /\
     k b' = k moon /\ Q b' = Q moon /\
     descriptive_index b' = descriptive_index moon /\
     name b' = name moon /\ hn b' = hn moon /\
     hosting_body b' = hosting_body moon) /\
  (exists b',
     CelestialBody_update_spin_frequency_omega system 2%nat 120 !! 2%nat = Some b' /\
     omega b' = 120 /\
     mass b' = mass moon /\ rho b' = rho moon /\ a b' = a moon /\
     k b' = k moon /\ Q b' = Q moon /\
     descriptive_index b' = descriptive_index moon /\
     name b' = name moon /\ hn b' = hn moon /\
     hosting_body b' = hosting_body moon) /\
  length (CelestialBody_update_semi_major_axis_a system 2%nat 120) = length system /\
  length (CelestialBody_update_spin_frequency_omega system 2%nat 120) = length system /\
  CelestialBody_I (CelestialBody_update_semi_major_axis_a system 2%nat 120) (Some 2%nat) =
    CelestialBody_I system (Some 2%nat) /\
  CelestialBody_I (CelestialBody_update_spin_frequency_omega system 2%nat 120) (Some 2%nat) =
    CelestialBody_I system (Some 2%nat) /\
  (forall m d sma w kk q di nm h host im ws l' s',
     CelestialBody_init system m d sma w kk q di nm h host im = (ws, Ok (l', s')) ->
     s' !! 2%nat = Some moon).
Proof. exact (updates_frame system 2%nat 2%nat 120 moon eq_refl). Defined.

(** ** Time units *)

Lemma turn_seconds_to_years_other (seconds : R) (keyword : string) :
  keyword <> "Vanilla" -> keyword <> "Millions" -> keyword <> "Billions" ->
  turn_seconds_to_years seconds keyword = ([seconds_warning], Ok None).
Proof.
  intros HV HM HB. unfold turn_seconds_to_years.
  rewrite pydiv_nonzero by lra. rewrite bind_ret.
  destruct (String.eqb_spec keyword "Vanilla"); [contradiction |].
  destruct (String.eqb_spec keyword "Millions"); [contradiction |].
  destruct (String.eqb_spec keyword "Billions"); [contradiction |].
  reflexivity.
Qed.

Lemma turn_seconds_to_years_units (seconds : R) :
  turn_seconds_to_years seconds "Vanilla" =
    ([], Ok (Some (np_round (seconds / (3600 * 24 * 365)) 2))) /\
  turn_seconds_to_years seconds "Millions" =
    ([], Ok (Some (np_round (seconds / (3600 * 24 * 365) / 10 ^ 6) 2))) /\
  turn_seconds_to_years seconds "Billions" =
    ([], Ok (Some (np_round (seconds / (3600 * 24 * 365) / 10 ^ 9) 2))).
Proof.
  unfold turn_seconds_to_years.
  rewrite pydiv_nonzero by lra. cbn [String.eqb Ascii.eqb Bool.eqb].
  split; [| split]; rewrite bind_ret.
  - reflexivity.
  - rewrite pydiv_nonzero by (apply pow_nonzero; lra). rewrite bind_ret. reflexivity.
  - rewrite pydiv_nonzero by (apply pow_nonzero; lra). rewrite bind_ret. reflexivity.
Qed.

(** C2, where the code departs from it. With a keyword that is none of the
    three units (the default ["Normal"] of the parameter is one) the
    function warns and then falls off its end: it returns [None] and raises
    nothing. *)
Theorem turn_seconds_to_years_unknown_unit (seconds : R) :
  turn_seconds_to_years seconds "Normal" = ([seconds_warning], Ok None) /\
  turn_seconds_to_years seconds "Centuries" = ([seconds_warning], Ok None).
Proof. split; apply turn_seconds_to_years_other; discriminate. Qed.

(** ** Kepler's third law *)

Lemma Rpower_base_one (y : R) : Rpower 1 y = 1.
Proof. unfold Rpower. rewrite ln_1, Rmult_0_r. apply exp_0. Qed.

(** The real-number identity behind the round trip. *)
Lemma kepler_inverse (sma mu : R) :
  0 < sma -> 0 < mu ->
  Rpower mu (1 / 3) * Rpower (Rpower mu (1 / 2) * Rpower sma (-3 / 2)) (-2 / 3) = sma.
Proof.
  intros Ha Hmu.
  rewrite <- Rpower_mult_distr by apply Rpower_pos.
  rewrite !Rpower_mult.
  rewrite <- Rmult_assoc, <- Rpower_plus.
  replace (1 / 3 + 1 / 2 * (-2 / 3)) with 0 by lra.
  replace (-3 / 2 * (-2 / 3)) with 1 by lra.
  rewrite Rpower_O by assumption. rewrite Rpower_1 by assumption. lra.
Qed.

Lemma keplers_law_n_from_a_simple_pos (sma mu : R) :
  0 < sma -> 0 < mu ->
  keplers_law_n_from_a_simple sma mu =
    ret (Rpower mu (1 / 2) * Rpower sma (-3 / 2)).
Proof.
  intros Ha Hmu. unfold keplers_law_n_from_a_simple.
  rewrite !pypow_pos by assumption. rewrite !bind_ret. reflexivity.
Qed.

Lemma a_from_n_inverts_simple (sma mu : R) :
  0 < sma -> 0 < mu ->
  a_from_n mu (keplers_law_n_from_a_simple sma mu) = ret sma.
Proof.
  intros Ha Hmu. unfold a_from_n.
  rewrite keplers_law_n_from_a_simple_pos by assumption.
  rewrite pypow_pos by assumption. rewrite !bind_ret.
  rewrite pypow_pos by (apply Rmult_lt_0_compat; apply Rpower_pos).
  rewrite bind_ret. rewrite kepler_inverse by assumption. reflexivity.
Qed.

(** The round trip through the functions on bodies: on a hosted body in
    direct orbit of its host, with axis [sma] and gravitational parameter
    [mu], the property [n] is the frequency of
    [keplers_law_n_from_a_simple] and [keplers_law_a_from_n] inverts it. *)
Lemma keplers_law_a_from_n_inverts_n (s : store) (host hosted : loc)
    (b : CelestialBody) (sma mu : R) :
  s !! hosted = Some b -> hosting_body b = Some host -> a b = Some sma ->
  check_if_direct_orbits s (Some host) hosted = ret tt ->
  get_standard_grav_parameter s (Some host) hosted false = ret mu ->
  0 < sma -> 0 < mu ->
  CelestialBody_n s hosted = keplers_law_n_from_a_simple sma mu /\
  keplers_law_a_from_n s (Some host) hosted = ret sma.
Proof.
  intros Hb Hhost Ha Hcheck Hmu Hsma Hpos.
  assert (Hfreq : CelestialBody_n s hosted = keplers_law_n_from_a_simple sma mu).
  { unfold CelestialBody_n, keplers_law_n_from_a, keplers_law_n_from_a_simple.
    rewrite (load_Some _ _ _ Hb), bind_ret, Hhost, Hcheck, bind_ret.
    rewrite Hmu, bind_ret. rewrite pypow_pos by assumption.
    rewrite !bind_ret, Ha. reflexivity. }
  split; [exact Hfreq |].
  unfold keplers_law_a_from_n.
  rewrite Hcheck, bind_ret, Hmu, bind_ret, Hfreq.
  apply a_from_n_inverts_simple; assumption.
Qed.

(** A star and a planet of equal masses, built by two constructor calls,
    with a given axis of the planet and a given gravitational parameter of
    the pair. *)
Lemma two_body_store (sma mu : R) :
  exists (s : store) (host hosted : loc) (b : CelestialBody),
    reachable s /\ s !! hosted = Some b /\ hosting_body b = Some host /\
    a b = Some sma /\
    check_if_direct_orbits s (Some host) hosted = ret tt /\
    get_standard_grav_parameter s (Some host) hosted false = ret mu /\
    CelestialBody_mu s hosted = ret mu.
Proof.
  set (m := mu / (2 * G)).
  set (star := mkBody m 1 0 1 1 "" "star" 1 None None).
  set (planet := mkBody m 1 0 1 1 "" "planet" 2 (Some 0%nat) (Some sma)).
  assert (H1 : reachable [star]).
  { exact (reachable_init [] m 1 None 0 1 1 "" "star" 1 None 0 _ _
             reachable_nil eq_refl). }
  assert (H2 : reachable [star; planet]).
  { exact (reachable_init _ m 1 (Some sma) 0 1 1 "" "planet" 2 (Some 0%nat) 0 _ _
             H1 eq_refl). }
  assert (Hmu : get_standard_grav_parameter [star; planet] (Some 0%nat) 1%nat false =
                ret mu).
  { unfold get_standard_grav_parameter.
    rewrite bind_ret, (load_opt_Some _ _ star) by reflexivity.
    rewrite bind_ret, (load_Some _ _ planet) by reflexivity.
    rewrite bind_ret. cbn [mass star planet]. do 2 f_equal.
    unfold m. field. unfold G. lra. }
  exists [star; planet], 0%nat, 1%nat, planet.
  repeat (split; [first [assumption | reflexivity] |]).
  unfold CelestialBody_mu. rewrite (load_Some _ _ planet) by reflexivity.
  rewrite bind_ret. exact Hmu.
Qed.

(** C5. For positive [a] and [mu], [keplers_law_n_from_a_simple] returns
    [mu^(1/2) * a^(-3/2)], and the inverse conversion of
    [keplers_law_a_from_n], [mu^(1/3) * n^(-2/3)], applied to that frequency
    with the same [mu], returns [a]: on every hosted body in direct orbit
    of its host, with semi-major axis [a] and gravitational parameter [mu],
    the frequency [keplers_law_a_from_n] reads (the property [n]) is the
    one of [keplers_law_n_from_a_simple a mu], and [keplers_law_a_from_n]
    returns [a]; and for every such [a] and [mu] the constructor builds
    such a pair of bodies. (Floats are read as reals: the identity is
    exact.) *)
Theorem kepler_round_trip (sma mu : R) :
  0 < sma -> 0 < mu ->
  keplers_law_n_from_a_simple sma mu =
    ([], Ok (Rpower mu (1 / 2) * Rpower sma (-3 / 2))) /\
  a_from_n mu (keplers_law_n_from_a_simple sma mu) = ([], Ok sma) /\
  (forall (s : store) (host hosted : loc) (b : CelestialBody),
     s !! hosted = Some b -> hosting_body b = Some host -> a b = Some sma ->
     check_if_direct_orbits s (Some host) hosted = ([], Ok tt) ->
     get_standard_grav_parameter s (Some host) hosted false = ([], Ok mu) ->
     CelestialBody_n s hosted = keplers_law_n_from_a_simple sma mu /\
     keplers_law_a_from_n s (Some host) hosted = ([], Ok sma)) /\
  (exists (s : store) (host hosted : loc) (b : CelestialBody),
     reachable s /\ s !! hosted = Some b /\ hosting_body b = Some host /\
     a b = Some sma /\
     get_standard_grav_parameter s (Some host) hosted false = ([], Ok mu) /\
     CelestialBody_n s hosted = keplers_law_n_from_a_simple sma mu /\
     keplers_law_a_from_n s (Some host) hosted = ([], Ok sma)).
Proof.
  intros Ha Hmu. split; [| split; [| split]].
  - apply keplers_law_n_from_a_simple_pos; assumption.
  - apply a_from_n_inverts_simple; assumption.
  - intros s host hosted b Hb Hhost Hax Hcheck Hgsp.
    apply (keplers_law_a_from_n_inverts_n s host hosted b sma mu); assumption.
  - destruct (two_body_store sma mu)
      as (s & host & hosted & b & Hs & Hb & Hhost & Hax & Hcheck & Hgsp & _).
    exists s, host, hosted, b. repeat (split; [assumption |]).
    apply (keplers_law_a_from_n_inverts_n s host hosted b sma mu); assumption.
Qed.

Lemma kepler_round_trip_witness :
  keplers_law_n_from_a_simple 100 (G * (100 + 10)) =
    ([], Ok (Rpower (G * (100 + 10)) (1 / 2) * Rpower 100 (-3 / 2))) /\
  CelestialBody_n system 2%nat =
    keplers_law_n_from_a_simple 100 (G * (100 + 10)) /\
  keplers_law_a_from_n system (Some 1%nat) 2%nat = ([], Ok 100).
Proof.
  destruct (kepler_round_trip 100 (G * (100 + 10))
              ltac:(lra) ltac:(unfold G; lra)) as (H1 & _ & H3 & _).
  split; [exact H1 |].
  apply (H3 system 1%nat 2%nat moon); reflexivity.
Defined.

(** The same on bodies: for a body in direct orbit of its host, with
    positive masses and a positive semi-major axis, [keplers_law_a_from_n]
    inverts the body's [n] and returns its semi-major axis. *)
Lemma keplers_law_a_from_n_returns_a (s : store) (host hosted : loc)
    (bh b : CelestialBody) (sma : R) :
  s !! hosted = Some b -> hosting_body b = Some host -> s !! host = Some bh ->
  hn b <> 1%Z -> Z.abs (hn b - hn bh) = 1%Z ->
  0 < mass b -> 0 < mass bh -> a b = Some sma -> 0 < sma ->
  keplers_law_a_from_n s (Some host) hosted = ([], Ok sma).
Proof.
  intros Hb Hhost Hbh Hn Hd Hm Hmh Ha Hsma.
  assert (Hcheck : check_if_direct_orbits s (Some host) hosted = ret tt).
  { rewrite (check_if_direct_orbits_eq _ _ _ _ Hb), Hbh.
    destruct (Z.eqb_spec (hn b) 1); [contradiction |].
    rewrite (proj2 (Z.eqb_eq _ _) Hd). reflexivity. }
  assert (Hmu : get_standard_grav_parameter s (Some host) hosted false =
                ret (G * (mass bh + mass b))).
  { unfold get_standard_grav_parameter.
    rewrite bind_ret, (load_opt_Some _ _ _ Hbh), bind_ret.
    rewrite (load_Some _ _ _ Hb), bind_ret. reflexivity. }
  assert (HG : 0 < G * (mass bh + mass b)).
  { apply Rmult_lt_0_compat; [unfold G; lra | lra]. }
  assert (Hfreq : CelestialBody_n s hosted =
                  keplers_law_n_from_a_simple sma (G * (mass bh + mass b))).
  { unfold CelestialBody_n, keplers_law_n_from_a, keplers_law_n_from_a_simple.
    rewrite (load_Some _ _ _ Hb), bind_ret, Hhost, Hcheck, bind_ret.
    rewrite Hmu, bind_ret. rewrite pypow_pos by assumption.
    rewrite !bind_ret, Ha. reflexivity. }
  unfold keplers_law_a_from_n.
  rewrite Hcheck, bind_ret, Hmu, bind_ret, Hfreq.
  apply a_from_n_inverts_simple; assumption.
Qed.

(** ** Radius and Roche limit *)

Lemma CelestialBody_R_physical (s : store) (l : loc) (b : CelestialBody) :
  s !! l = Some b -> 0 < mass b -> 0 < rho b ->
  CelestialBody_R s (Some l) = ret (spec_meanRadius b).
Proof.
  intros Hl Hm Hr. pose proof PI_RGT_0 as Hpi.
  unfold CelestialBody_R. rewrite (load_opt_Some _ _ _ Hl), bind_ret.
  rewrite pydiv_nonzero by lra. rewrite bind_ret.
  rewrite pydiv_nonzero by lra. rewrite bind_ret.
  assert (Hq : 3 * mass b / rho b / (4 * PI) = 3 * mass b / (rho b * (4 * PI))).
  { field. split; lra. }
  assert (Hpos : 0 < 3 * mass b / rho b / (4 * PI)).
  { apply Rdiv_lt_0_compat; [apply Rdiv_lt_0_compat |]; lra. }
  rewrite pypow_pos by assumption. unfold spec_meanRadius. rewrite Hq. reflexivity.
Qed.

Lemma spec_meanRadius_pos (b : CelestialBody) : 0 < spec_meanRadius b.
Proof. apply Rpower_pos. Qed.

Lemma get_roche_limit_physical (s : store) (hosted l : loc) (j i : CelestialBody) :
  s !! hosted = Some j -> hosting_body j = Some l -> s !! l = Some i ->
  0 < mass j -> 0 < rho j -> 0 < mass i ->
  get_roche_limit s hosted = ret (spec_rocheLimit j i).
Proof.
  intros Hj Hhost Hi Hm Hr Hmi. unfold get_roche_limit.
  rewrite (load_Some _ _ _ Hj), bind_ret.
  rewrite (CelestialBody_R_physical _ _ _ Hj Hm Hr), bind_ret.
  rewrite Hhost, (load_opt_Some _ _ _ Hi), bind_ret.
  rewrite pydiv_nonzero by lra. rewrite bind_ret.
  rewrite pypow_pos by (apply Rdiv_lt_0_compat; lra).
  rewrite bind_ret. reflexivity.
Qed.

(** C8. For a hosted body and its host with positive masses and density,
    [get_roche_limit] returns
    [hosted.R * (3 * host.mass / hosted.mass)^(1/3)]; and of two hosted
    bodies of equal mass and density, the one on the heavier host has the
    strictly larger Roche limit. *)
Theorem roche_limit_increases_with_host_mass (s1 s2 : store)
    (hosted1 hosted2 l1 l2 : loc) (j1 j2 i1 i2 : CelestialBody) :
  s1 !! hosted1 = Some j1 -> hosting_body j1 = Some l1 -> s1 !! l1 = Some i1 ->
  s2 !! hosted2 = Some j2 -> hosting_body j2 = Some l2 -> s2 !! l2 = Some i2 ->
  0 < mass j1 -> 0 < rho j1 ->
  mass j2 = mass j1 -> rho j2 = rho j1 ->
  0 < mass i1 -> mass i1 < mass i2 ->
  exists r1 r2 : R,
    get_roche_limit s1 hosted1 = ([], Ok r1) /\
    get_roche_limit s2 hosted2 = ([], Ok r2) /\
    r1 = spec_rocheLimit j1 i1 /\ r2 = spec_rocheLimit j2 i2 /\
    r1 < r2.
Proof.
  intros Hj1 Hh1 Hi1 Hj2 Hh2 Hi2 Hm Hr Hm2 Hr2 Hi Hlt.
  exists (spec_rocheLimit j1 i1), (spec_rocheLimit j2 i2).
  split; [apply (get_roche_limit_physical _ _ l1); assumption || lra |].
  split; [apply (get_roche_limit_physical _ _ l2); try assumption; lra |].
  split; [reflexivity | split; [reflexivity |]].
  unfold spec_rocheLimit, spec_meanRadius. rewrite Hm2, Hr2.
  apply Rmult_lt_compat_l; [apply Rpower_pos |].
  apply Rlt_Rpower_l; [lra |]. split.
  - apply Rdiv_lt_0_compat; lra.
  - apply Rmult_lt_compat_r; [apply Rinv_0_lt_compat; assumption | lra].
Qed.

Lemma roche_limit_increases_with_host_mass_witness :
  exists r1 r2 : R,
    get_roche_limit twin_system 2%nat = ([], Ok r1) /\
    get_roche_limit twin_system 5%nat = ([], Ok r2) /\
    r1 = spec_rocheLimit moon earth /\ r2 = spec_rocheLimit far_moon giant /\
    r1 < r2.
Proof.
  apply (roche_limit_increases_with_host_mass twin_system twin_system
           2%nat 5%nat 1%nat 4%nat moon far_moon earth giant);
    try reflexivity; cbn; lra.
Defined.

(** ** The one-tide lifetime *)

Lemma spec_lifetime_rhs_pos (hosted host : CelestialBody) :
  0 < k host -> 0 < Q host -> 0 < mass hosted ->
  0 < spec_lifetime_rhs hosted host.
Proof.
  intros Hk HQ Hm. unfold spec_lifetime_rhs.
  apply Rmult_lt_0_compat; [| assumption].
  apply Rmult_lt_0_compat; [| apply pow_lt, spec_meanRadius_pos].
  apply Rmult_lt_0_compat; [| apply Rpower_pos].
  apply Rdiv_lt_0_compat; lra.
Qed.

Lemma analytical_lifetime_one_tide_physical (s : store) (hosted l : loc)
    (j i : CelestialBody) (a_0 a_c : R) :
  s !! hosted = Some j -> hosting_body j = Some l -> s !! l = Some i ->
  0 < mass j -> 0 < mass i -> 0 < rho i -> 0 < k i -> 0 < Q i ->
  0 < a_0 -> 0 < a_c ->
  analytical_lifetime_one_tide s a_0 a_c hosted =
    ret (spec_analyticalOneTideLifetime a_0 a_c j i).
Proof.
  intros Hj Hhost Hi Hmj Hmi Hri Hki HQi Ha0 Hac.
  unfold analytical_lifetime_one_tide.
  rewrite (load_Some _ _ _ Hj), bind_ret.
  rewrite pypow_pos by assumption. rewrite bind_ret.
  rewrite pydiv_nonzero by lra. rewrite bind_ret.
  rewrite pypow_pos by (apply Rdiv_lt_0_compat; assumption). rewrite bind_ret.
  rewrite Hhost, (load_opt_Some _ _ _ Hi), bind_ret.
  rewrite pydiv_nonzero by lra. rewrite bind_ret.
  rewrite pydiv_nonzero by lra. rewrite bind_ret.
  rewrite pypow_pos by (apply Rdiv_lt_0_compat; [unfold G |]; lra).
  rewrite bind_ret.
  rewrite (CelestialBody_R_physical _ _ _ Hi Hmi Hri), bind_ret.
  rewrite pypow_pos by apply spec_meanRadius_pos. rewrite bind_ret.
  replace 5 with (INR 5) by (simpl; lra).
  rewrite Rpower_pow by apply spec_meanRadius_pos.
  pose proof (spec_lifetime_rhs_pos j i Hki HQi Hmj) as Hrhs.
  unfold spec_lifetime_rhs in Hrhs.
  rewrite pydiv_nonzero by lra. reflexivity.
Qed.

Lemma spec_lifetime_same_axis (a0 : R) (hosted host : CelestialBody) :
  0 < a0 -> spec_analyticalOneTideLifetime a0 a0 hosted host = 0.
Proof.
  intros Ha. unfold spec_analyticalOneTideLifetime, spec_lifetime_lhs.
  replace (a0 / a0) with 1 by (field; lra).
  rewrite Rpower_base_one. lra.
Qed.

(** C6, as the code has it. For a hosted body and its host with positive
    masses, density, Love number and quality factor, and positive [a_0] and
    [a_c], [analytical_lifetime_one_tide] returns [lhs / rhs] with the [lhs]
    and [rhs] of the specification, exponents [13/2]; and for every positive
    [a_0] the lifetime from [a_0] to [a_0] is [0]. *)
Theorem analytical_lifetime_one_tide_spec (s : store) (hosted l : loc)
    (j i : CelestialBody) (a_0 a_c : R) :
  s !! hosted = Some j -> hosting_body j = Some l -> s !! l = Some i ->
  0 < mass j -> 0 < mass i -> 0 < rho i -> 0 < k i -> 0 < Q i ->
  0 < a_0 -> 0 < a_c ->
  analytical_lifetime_one_tide s a_0 a_c hosted =
    ([], Ok (spec_analyticalOneTideLifetime a_0 a_c j i)) /\
  analytical_lifetime_one_tide s a_0 a_0 hosted = ([], Ok 0).
Proof.
  intros Hj Hhost Hi Hmj Hmi Hri Hki HQi Ha0 Hac. split.
  - apply (analytical_lifetime_one_tide_physical _ _ l); assumption.
  - rewrite (analytical_lifetime_one_tide_physical s hosted l j i a_0 a_0
               Hj Hhost Hi Hmj Hmi Hri Hki HQi Ha0 Ha0).
    rewrite spec_lifetime_same_axis by assumption. reflexivity.
Qed.

Lemma analytical_lifetime_one_tide_spec_witness :
  analytical_lifetime_one_tide system 100 200 2%nat =
    ([], Ok (spec_analyticalOneTideLifetime 100 200 moon earth)) /\
  analytical_lifetime_one_tide system 100 100 2%nat = ([], Ok 0).
Proof.
  apply (analytical_lifetime_one_tide_spec system 2%nat 1%nat moon earth 100 200);
    try reflexivity; cbn; lra.
Defined.

(** C6, as stated, fails at [a_0 = 0]: on the earth of the system, whose
    attributes are in the ranges of the data model, the quotient
    [a_0 / a_c] of the left-hand side divides by zero. *)
Lemma analytical_lifetime_zero_axis_raises :
  physical system /\
  analytical_lifetime_one_tide system 0 0 1%nat = ([], Raise ZeroDivisionError).
Proof.
  split; [exact system_physical |].
  unfold analytical_lifetime_one_tide.
  rewrite (load_Some _ _ earth) by reflexivity. rewrite bind_ret.
  rewrite pypow_zero by lra. rewrite bind_ret.
  rewrite pydiv_zero. reflexivity.
Qed.

(** ** Hill radius and critical semi-major axis *)

(** In a store built through the class, a body of level 3 or more, or of
    level 0 or less, has a host and that host has a host. *)
Lemma grandparent_exists (s : store) (l : loc) (b : CelestialBody) :
  reachable s -> s !! l = Some b -> (2 < hn b)%Z ->
  exists lj j li i,
    hosting_body b = Some lj /\ s !! lj = Some j /\
    hosting_body j = Some li /\ s !! li = Some i /\ hn j <> 1%Z.
Proof.
  intros Hs Hl Hn. pose proof (reachable_well_hosted _ Hs) as Hw.
  pose proof (Hw _ _ Hl) as Hb. unfold adjacent_host in Hb.
  destruct (decide (hn b = 1%Z)); [lia |].
  destruct Hb as (lj & j & Hhost & Hj & Hd).
  pose proof (Hw _ _ Hj) as Hbj. unfold adjacent_host in Hbj.
  destruct (decide (hn j = 1%Z)); [lia |].
  destruct Hbj as (li & i & Hhost' & Hi & _).
  exists lj, j, li, i. repeat split; assumption.
Qed.

Lemma get_hill_radius_low (s : store) (hosted : loc) (body : CelestialBody) :
  s !! hosted = Some body -> (hn body <= 2)%Z ->
  get_hill_radius_relevant_to_body s hosted =
    ([hill_warning], Raise (ValueError (NoGrandparent (hn body)))).
Proof.
  intros Hl Hn. unfold get_hill_radius_relevant_to_body.
  rewrite (load_Some _ _ _ Hl), bind_ret.
  rewrite (proj2 (Z.leb_le _ _) Hn). reflexivity.
Qed.

Lemma get_hill_radius_physical (s : store) (hosted lj li : loc)
    (body j i : CelestialBody) (a_j : R) :
  s !! hosted = Some body -> (2 < hn body)%Z ->
  hosting_body body = Some lj -> s !! lj = Some j ->
  hosting_body j = Some li -> s !! li = Some i ->
  a j = Some a_j -> 0 < mass j -> 0 < mass i ->
  get_hill_radius_relevant_to_body s hosted = ret (spec_hillSphereRadius a_j j i).
Proof.
  intros Hl Hn Hhost Hj Hhost' Hi Ha Hmj Hmi.
  unfold get_hill_radius_relevant_to_body.
  rewrite (load_Some _ _ _ Hl), bind_ret.
  rewrite (proj2 (Z.leb_gt _ _) Hn).
  rewrite Hhost, (load_opt_Some _ _ _ Hj), bind_ret.
  rewrite Hhost', (load_opt_Some _ _ _ Hi), bind_ret.
  rewrite pydiv_nonzero by lra. rewrite bind_ret.
  rewrite pypow_pos by (apply Rdiv_lt_0_compat; lra). rewrite bind_ret.
  rewrite Ha. reflexivity.
Qed.

(** C7. In a store built through the class: for a body of level 1 or 2
    (of any level up to 2), [get_hill_radius_relevant_to_body] and
    [get_critical_semi_major_axis] both warn and then raise the
    [ValueError] about the missing ancestor. For a body of level 3 or 4 the
    host [j] and its host [i] exist, and, the attributes of the bodies being
    in the ranges of the data model, the first returns
    [j.a * (j.mass / (3 * i.mass))^(1/3)] and the second [f] times that,
    with [f = 0.4] at level 3 and [f = 0.33] at level 4. *)
Theorem ancestry_depth_gating (s : store) (hosted : loc) (body : CelestialBody) :
  reachable s -> physical s -> s !! hosted = Some body ->
  ((hn body <= 2)%Z ->
     get_hill_radius_relevant_to_body s hosted =
       ([hill_warning], Raise (ValueError (NoGrandparent (hn body)))) /\
     get_critical_semi_major_axis s hosted =
       ([hill_warning], Raise (ValueError (NoGrandparent (hn body))))) /\
  (hn body = 3%Z \/ hn body = 4%Z ->
     exists lj j li i a_j,
       hosting_body body = Some lj /\ s !! lj = Some j /\
       hosting_body j = Some li /\ s !! li = Some i /\ a j = Some a_j /\
       get_hill_radius_relevant_to_body s hosted =
         ([], Ok (spec_hillSphereRadius a_j j i)) /\
       get_critical_semi_major_axis s hosted =
         ([], Ok ((if (hn body =? 3)%Z then 0.4 else 0.33) *
                  spec_hillSphereRadius a_j j i))).
Proof.
  intros Hs Hphys Hl. split.
  - intros Hn. split; [apply get_hill_radius_low; assumption |].
    unfold get_critical_semi_major_axis.
    rewrite (load_Some _ _ _ Hl), bind_ret.
    destruct (Z.eqb_spec (hn body) 3) as [? | _]; [lia |].
    destruct (Z.eqb_spec (hn body) 4) as [? | _]; [lia |].
    reflexivity.
  - intros Hn.
    destruct (grandparent_exists s hosted body Hs Hl ltac:(lia))
      as (lj & j & li & i & Hhost & Hj & Hhost' & Hi & Hnj).
    destruct (Forall_lookup_1 _ _ _ _ Hphys Hj) as (Hmj & _ & _ & _ & Haj).
    destruct (Haj Hnj) as (a_j & Ha & _).
    destruct (Forall_lookup_1 _ _ _ _ Hphys Hi) as (Hmi & _).
    exists lj, j, li, i, a_j. repeat (split; [assumption |]).
    assert (Hhill : get_hill_radius_relevant_to_body s hosted =
                    ret (spec_hillSphereRadius a_j j i)).
    { apply (get_hill_radius_physical s hosted lj li body); try assumption. lia. }
    split; [exact Hhill |].
    unfold get_critical_semi_major_axis.
    rewrite (load_Some _ _ _ Hl), bind_ret.
    destruct Hn as [-> | ->]; cbn [Z.eqb Pos.eqb];
      rewrite bind_ret, Hhill, bind_ret; reflexivity.
Qed.

Lemma ancestry_depth_gating_witness :
  (get_hill_radius_relevant_to_body system 1%nat =
     ([hill_warning], Raise (ValueError (NoGrandparent 2))) /\
   get_critical_semi_major_axis system 1%nat =
     ([hill_warning], Raise (ValueError (NoGrandparent 2)))) /\
  (exists lj j li i a_j,
     hosting_body moon = Some lj /\ system !! lj = Some j /\
     hosting_body j = Some li /\ system !! li = Some i /\ a j = Some a_j /\
     get_hill_radius_relevant_to_body system 2%nat =
       ([], Ok (spec_hillSphereRadius a_j j i)) /\
     get_critical_semi_major_axis system 2%nat =
       ([], Ok (0.4 * spec_hillSphereRadius a_j j i))).
Proof.
  split.
  - apply (ancestry_depth_gating system 1%nat earth
             system_reachable system_physical eq_refl).
    cbn. lia.
  - apply (ancestry_depth_gating system 2%nat moon
             system_reachable system_physical eq_refl).
    left. reflexivity.
Defined.

(** * Further properties of the module *)

(** ** Direct orbits and the derived orbit quantities *)

(** X1. [check_if_direct_orbits] tests the hosted body first: a star is
    rejected as hosted body with the [ValueError] about stars whatever the
    hosting argument is, [None] included; for any other hosted body a
    hosting argument [None] raises an [AttributeError]. *)
Theorem check_if_direct_orbits_star_or_no_host (s : store) (hosted : loc)
    (bc : CelestialBody) :
  s !! hosted = Some bc ->
  (hn bc = 1%Z -> forall hosting,
     check_if_direct_orbits s hosting hosted = ([], Raise (ValueError StarHosted))) /\
  (hn bc <> 1%Z ->
     check_if_direct_orbits s None hosted = ([], Raise AttributeError)).
Proof.
  intros Hc. split.
  - intros H1 hosting. rewrite (check_if_direct_orbits_eq _ _ _ _ Hc), H1. reflexivity.
  - intros H1. rewrite (check_if_direct_orbits_eq _ _ _ _ Hc).
    destruct (Z.eqb_spec (hn bc) 1); [contradiction | reflexivity].
Qed.

Lemma check_if_direct_orbits_star_or_no_host_witness :
  (forall hosting,
     check_if_direct_orbits system hosting 0%nat =
       ([], Raise (ValueError StarHosted))) /\
  check_if_direct_orbits system None 1%nat = ([], Raise AttributeError).
Proof.
  split.
  - apply (check_if_direct_orbits_star_or_no_host system 0%nat sun eq_refl).
    reflexivity.
  - apply (check_if_direct_orbits_star_or_no_host system 1%nat earth eq_refl).
    discriminate.
Defined.

(** On a store built through the class, the check a body was constructed
    with still holds. *)
Lemma check_reachable (s : store) (l : loc) (b : CelestialBody) :
  reachable s -> s !! l = Some b -> hn b <> 1%Z ->
  exists h bh,
    hosting_body b = Some h /\ s !! h = Some bh /\
    Z.abs (hn b - hn bh) = 1%Z /\
    check_if_direct_orbits s (Some h) l = ret tt.
Proof.
  intros Hs Hl Hn. pose proof (reachable_well_hosted _ Hs _ _ Hl) as Hb.
  unfold adjacent_host in Hb. destruct (decide (hn b = 1%Z)); [contradiction |].
  destruct Hb as (h & bh & Hhost & Hh & Hd). exists h, bh.
  repeat (split; [assumption |]).
  rewrite (check_if_direct_orbits_eq _ _ _ _ Hl), Hh.
  destruct (Z.eqb_spec (hn b) 1); [contradiction |].
  rewrite (proj2 (Z.eqb_eq _ _) Hd). reflexivity.
Qed.

Lemma get_standard_grav_parameter_unchecked (s : store) (h l : loc)
    (bh b : CelestialBody) :
  s !! h = Some bh -> s !! l = Some b ->
  get_standard_grav_parameter s (Some h) l false = ret (G * (mass bh + mass b)).
Proof.
  intros Hh Hl. unfold get_standard_grav_parameter.
  rewrite bind_ret, (load_opt_Some _ _ _ Hh), bind_ret.
  rewrite (load_Some _ _ _ Hl), bind_ret. reflexivity.
Qed.

Lemma G_pos : 0 < G.
Proof. unfold G. lra. Qed.

Lemma keplers_law_n_from_a_direct (s : store) (h l : loc) (bh b : CelestialBody)
    (sma : R) :
  s !! l = Some b -> s !! h = Some bh ->
  check_if_direct_orbits s (Some h) l = ret tt ->
  0 < mass b -> 0 < mass bh -> a b = Some sma ->
  keplers_law_n_from_a s (Some h) l =
    keplers_law_n_from_a_simple sma (G * (mass bh + mass b)).
Proof.
  intros Hl Hh Hcheck Hm Hmh Ha.
  assert (HG : 0 < G * (mass bh + mass b)).
  { apply Rmult_lt_0_compat; [apply G_pos | lra]. }
  unfold keplers_law_n_from_a, keplers_law_n_from_a_simple.
  rewrite Hcheck, bind_ret.
  rewrite (get_standard_grav_parameter_unchecked _ _ _ _ _ Hh Hl), bind_ret.
  rewrite pypow_pos by assumption.
  rewrite (load_Some _ _ _ Hl), !bind_ret, Ha. reflexivity.
Qed.

(** X2. Kepler's third law: for positive [a] and [mu] the frequency [n] that
    [keplers_law_n_from_a_simple] returns is positive and satisfies
    [n^2 * a^3 = mu]. *)
Theorem keplers_third_law (sma mu : R) :
  0 < sma -> 0 < mu ->
  exists n : R,
    keplers_law_n_from_a_simple sma mu = ([], Ok n) /\
    0 < n /\ n ^ 2 * sma ^ 3 = mu.
Proof.
  intros Ha Hmu. exists (Rpower mu (1 / 2) * Rpower sma (-3 / 2)).
  split; [apply keplers_law_n_from_a_simple_pos; assumption |].
  split; [apply Rmult_lt_0_compat; apply Rpower_pos |].
  assert (H3 : sma ^ 3 = Rpower sma 3).
  { rewrite <- (Rpower_pow 3 sma Ha). f_equal. simpl. lra. }
  rewrite H3.
  replace ((Rpower mu (1 / 2) * Rpower sma (-3 / 2)) ^ 2 * Rpower sma 3)
    with ((Rpower mu (1 / 2) * Rpower mu (1 / 2)) *
          (Rpower sma (-3 / 2) * Rpower sma (-3 / 2) * Rpower sma 3)) by ring.
  rewrite <- !Rpower_plus.
  replace (1 / 2 + 1 / 2) with 1 by lra.
  replace (-3 / 2 + -3 / 2 + 3) with 0 by lra.
  rewrite Rpower_1, Rpower_O by assumption. lra.
Qed.

Lemma keplers_third_law_witness :
  exists n : R,
    keplers_law_n_from_a_simple 4 9 = ([], Ok n) /\ 0 < n /\ n ^ 2 * 4 ^ 3 = 9.
Proof. apply (keplers_third_law 4 9); lra. Defined.

(** X3. The round trip starting from a frequency: for every positive
    frequency [freq] and gravitational parameter [mu] the constructor
    builds a hosted body whose [mu] is [mu] and whose [n] is [freq]; on it
    [keplers_law_a_from_n] returns the axis [mu^(1/3) * freq^(-2/3)], and
    [keplers_law_n_from_a_simple] turns that axis back into [freq]. *)
Theorem kepler_round_trip_from_n (freq mu : R) :
  0 < freq -> 0 < mu ->
  exists (s : store) (host hosted : loc) (sma : R),
    reachable s /\
    CelestialBody_mu s hosted = ([], Ok mu) /\
    CelestialBody_n s hosted = ([], Ok freq) /\
    keplers_law_a_from_n s (Some host) hosted = ([], Ok sma) /\
    sma = Rpower mu (1 / 3) * Rpower freq (-2 / 3) /\
    keplers_law_n_from_a_simple sma mu = ([], Ok freq).
Proof.
  intros Hn Hmu.
  set (sma := Rpower mu (1 / 3) * Rpower freq (-2 / 3)).
  assert (Hpos : 0 < sma) by (apply Rmult_lt_0_compat; apply Rpower_pos).
  assert (Hback : keplers_law_n_from_a_simple sma mu = ret freq).
  { rewrite keplers_law_n_from_a_simple_pos by assumption. unfold sma.
    rewrite <- Rpower_mult_distr by apply Rpower_pos.
    rewrite !Rpower_mult, <- Rmult_assoc, <- Rpower_plus.
    replace (1 / 2 + 1 / 3 * (-3 / 2)) with 0 by lra.
    replace (-2 / 3 * (-3 / 2)) with 1 by lra.
    rewrite Rpower_O, Rpower_1 by assumption.
    rewrite Rmult_1_l. reflexivity. }
  destruct (two_body_store sma mu)
    as (s & host & hosted & b & Hs & Hb & Hhost & Hax & Hcheck & Hgsp & Hbmu).
  destruct (keplers_law_a_from_n_inverts_n s host hosted b sma mu
              Hb Hhost Hax Hcheck Hgsp Hpos Hmu) as [Hfreq Hinv].
  exists s, host, hosted, sma.
  split; [assumption |]. split; [exact Hbmu |].
  split; [rewrite Hfreq; exact Hback |].
  split; [exact Hinv |]. split; [reflexivity | exact Hback].
Qed.

Lemma kepler_round_trip_from_n_witness :
  exists (s : store) (host hosted : loc) (sma : R),
    reachable s /\
    CelestialBody_mu s hosted = ([], Ok 9) /\
    CelestialBody_n s hosted = ([], Ok 2) /\
    keplers_law_a_from_n s (Some host) hosted = ([], Ok sma) /\
    sma = Rpower 9 (1 / 3) * Rpower 2 (-2 / 3) /\
    keplers_law_n_from_a_simple sma 9 = ([], Ok 2).
Proof. apply (kepler_round_trip_from_n 2 9); lra. Defined.

Lemma Rpower_neg_decreasing (x y e : R) :
  0 < e -> 0 < x -> x < y -> Rpower y (- e) < Rpower x (- e).
Proof.
  intros He Hx Hxy. rewrite !Rpower_Ropp.
  apply Rinv_lt_contravar.
  - apply Rmult_lt_0_compat; apply Rpower_pos.
  - apply Rlt_Rpower_l; [assumption | split; assumption].
Qed.

(** X4. The orbit frequency of [keplers_law_n_from_a_simple] strictly
    decreases when the semi-major axis grows and strictly increases with
    the gravitational parameter. *)
Theorem keplers_law_n_monotone (a1 a2 mu1 mu2 : R) :
  0 < a1 -> a1 < a2 -> 0 < mu1 -> mu1 < mu2 ->
  exists n11 n21 n12 : R,
    keplers_law_n_from_a_simple a1 mu1 = ([], Ok n11) /\
    keplers_law_n_from_a_simple a2 mu1 = ([], Ok n21) /\
    keplers_law_n_from_a_simple a1 mu2 = ([], Ok n12) /\
    n21 < n11 /\ n11 < n12.
Proof.
  intros Ha1 Ha Hmu1 Hmu.
  eexists _, _, _.
  split; [apply keplers_law_n_from_a_simple_pos; lra |].
  split; [apply keplers_law_n_from_a_simple_pos; lra |].
  split; [apply keplers_law_n_from_a_simple_pos; lra |].
  split.
  - apply Rmult_lt_compat_l; [apply Rpower_pos |].
    replace (-3 / 2) with (- (3 / 2)) by lra.
    apply Rpower_neg_decreasing; lra.
  - apply Rmult_lt_compat_r; [apply Rpower_pos |].
    apply Rlt_Rpower_l; lra.
Qed.

Lemma keplers_law_n_monotone_witness :
  exists n11 n21 n12 : R,
    keplers_law_n_from_a_simple 1 1 = ([], Ok n11) /\
    keplers_law_n_from_a_simple 2 1 = ([], Ok n21) /\
    keplers_law_n_from_a_simple 1 2 = ([], Ok n12) /\
    n21 < n11 /\ n11 < n12.
Proof. apply (keplers_law_n_monotone 1 2 1 2); lra. Defined.

(** ** What the formulas read *)

Lemma bind_assoc {A B C} (m : M A) (f : A -> M B) (g : B -> M C) :
  bind (bind m f) g = bind m (fun x => bind (f x) g).
Proof.
  destruct m as [w [v | e | l]]; [| reflexivity | reflexivity].
  cbn. destruct (f v) as [w' [v' | e | l]]; cbn; [| reflexivity | reflexivity].
  destruct (g v') as [w'' r]. rewrite app_assoc. reflexivity.
Qed.

Lemma bind_ext {A B} (m : M A) (f g : A -> M B) :
  (forall x, f x = g x) -> bind m f = bind m g.
Proof.
  intros H. destruct m as [w [v | e | l]]; cbn; [rewrite H |..]; reflexivity.
Qed.

Section frame.
(** An update [f] of the object at [self] that keeps everything but,
    possibly, [omega] and [a]. *)
Variable f : CelestialBody -> CelestialBody.
Variable self : loc.
Hypothesis f_mass : forall b, mass (f b) = mass b.
Hypothesis f_rho : forall b, rho (f b) = rho b.
Hypothesis f_k : forall b, k (f b) = k b.
Hypothesis f_Q : forall b, Q (f b) = Q b.
Hypothesis f_hn : forall b, hn (f b) = hn b.
Hypothesis f_host : forall b, hosting_body (f b) = hosting_body b.

Local Abbreviation touch := (touched f self).

Lemma load_alter (s : store) (l : loc) :
  load (alter f self s) l = (b <- load s l ;; ret (touch l b)).
Proof.
  unfold load, touched. destruct (s !! l) as [b |] eqn:Hl.
  - rewrite (lookup_alter_Some f _ self _ _ Hl), bind_ret. reflexivity.
  - rewrite list_lookup_alter. case_decide as Heq.
    + subst l. rewrite Hl. reflexivity.
    + rewrite Hl. reflexivity.
Qed.

Lemma load_opt_alter (s : store) (o : option loc) :
  load_opt (alter f self s) o =
    (b <- load_opt s o ;; ret (match o with Some l => touch l b | None => b end)).
Proof. destruct o as [l |]; [apply load_alter | reflexivity]. Qed.

Ltac frame_fields :=
  unfold touched; repeat case_decide;
  rewrite ?f_mass, ?f_rho, ?f_k, ?f_Q, ?f_hn, ?f_host.

Lemma bind_load_alter {A} (s : store) (l : loc) (k' k : CelestialBody -> M A) :
  (forall b, k' (touch l b) = k b) ->
  bind (load (alter f self s) l) k' = bind (load s l) k.
Proof.
  intros H. rewrite load_alter, bind_assoc. apply bind_ext. intros b.
  rewrite bind_ret. apply H.
Qed.

Lemma bind_load_opt_alter {A} (s : store) (o : option loc)
    (k' k : CelestialBody -> M A) :
  (forall b, k' (match o with Some l => touch l b | None => b end) = k b) ->
  bind (load_opt (alter f self s) o) k' = bind (load_opt s o) k.
Proof.
  intros H. rewrite load_opt_alter, bind_assoc. apply bind_ext. intros b.
  rewrite bind_ret. apply H.
Qed.

Tactic Notation "frame_load" ident(b) :=
  first [ apply bind_load_alter | apply bind_load_opt_alter ];
  intros b; cbv beta.

Lemma touched_fields (l : loc) (b : CelestialBody) :
  mass (touch l b) = mass b /\ rho (touch l b) = rho b /\
  k (touch l b) = k b /\ Q (touch l b) = Q b /\
  hn (touch l b) = hn b /\ hosting_body (touch l b) = hosting_body b.
Proof. frame_fields; repeat split; reflexivity. Qed.

Lemma touched_opt_fields (o : option loc) (b : CelestialBody) :
  let b' := match o with Some l => touch l b | None => b end in
  mass b' = mass b /\ rho b' = rho b /\ k b' = k b /\ Q b' = Q b /\
  hn b' = hn b /\ hosting_body b' = hosting_body b.
Proof.
  destruct o as [l |]; [apply touched_fields | repeat split; reflexivity].
Qed.

Lemma check_if_direct_orbits_alter (s : store) (o : option loc) (l : loc) :
  check_if_direct_orbits (alter f self s) o l = check_if_direct_orbits s o l.
Proof.
  unfold check_if_direct_orbits. frame_load hosted.
  destruct (touched_fields l hosted) as (_ & _ & _ & _ & -> & _).
  destruct (_ =? _)%Z; [reflexivity |].
  frame_load hosting.
  destruct (touched_opt_fields o hosting) as (_ & _ & _ & _ & -> & _).
  reflexivity.
Qed.

Lemma get_standard_grav_parameter_alter (s : store) (o : option loc) (l : loc)
    (c : bool) :
  get_standard_grav_parameter (alter f self s) o l c =
  get_standard_grav_parameter s o l c.
Proof.
  unfold get_standard_grav_parameter. rewrite check_if_direct_orbits_alter.
  apply bind_ext; intros _. frame_load hosting. frame_load hosted.
  destruct (touched_opt_fields o hosting) as (-> & _).
  destruct (touched_fields l hosted) as (-> & _).
  reflexivity.
Qed.

Lemma CelestialBody_mu_alter (s : store) (l : loc) :
  CelestialBody_mu (alter f self s) l = CelestialBody_mu s l.
Proof.
  unfold CelestialBody_mu. frame_load me.
  rewrite get_standard_grav_parameter_alter.
  destruct (touched_fields l me) as (_ & _ & _ & _ & _ & ->).
  reflexivity.
Qed.

Lemma get_roche_limit_alter (s : store) (l : loc) :
  get_roche_limit (alter f self s) l = get_roche_limit s l.
Proof.
  unfold get_roche_limit. frame_load j.
  rewrite (CelestialBody_R_alter f s self _ f_mass f_rho).
  apply bind_ext; intros r.
  destruct (touched_fields l j) as (-> & _ & _ & _ & _ & ->).
  frame_load host.
  destruct (touched_opt_fields (hosting_body j) host) as (-> & _).
  reflexivity.
Qed.

Lemma analytical_lifetime_one_tide_alter (s : store) (a_0 a_c : R) (l : loc) :
  analytical_lifetime_one_tide (alter f self s) a_0 a_c l =
  analytical_lifetime_one_tide s a_0 a_c l.
Proof.
  unfold analytical_lifetime_one_tide. frame_load j.
  do 3 (apply bind_ext; intros ?).
  destruct (touched_fields l j) as (-> & _ & _ & _ & _ & ->).
  frame_load host.
  rewrite (CelestialBody_R_alter f s self _ f_mass f_rho).
  destruct (touched_opt_fields (hosting_body j) host) as (-> & _ & -> & -> & _).
  reflexivity.
Qed.

Lemma get_a_derivative_factors_experimental_alter (s : store) (l : loc) :
  get_a_derivative_factors_experimental (alter f self s) l =
  get_a_derivative_factors_experimental s l.
Proof.
  unfold get_a_derivative_factors_experimental. frame_load j.
  destruct (touched_fields l j) as (-> & _ & _ & _ & _ & ->).
  rewrite (CelestialBody_R_alter f s self _ f_mass f_rho).
  do 2 (apply bind_ext; intros ?).
  rewrite CelestialBody_mu_alter.
  do 2 (apply bind_ext; intros ?).
  frame_load host.
  destruct (touched_opt_fields (hosting_body j) host) as (-> & _ & -> & -> & _).
  reflexivity.
Qed.

(** The formulas below read [a] as well. *)
Hypothesis f_a : forall b, a (f b) = a b.

Lemma touched_a (l : loc) (b : CelestialBody) : a (touch l b) = a b.
Proof. unfold touched. case_decide; [apply f_a | reflexivity]. Qed.

Lemma keplers_law_n_from_a_alter (s : store) (o : option loc) (l : loc) :
  keplers_law_n_from_a (alter f self s) o l = keplers_law_n_from_a s o l.
Proof.
  unfold keplers_law_n_from_a. rewrite check_if_direct_orbits_alter.
  apply bind_ext; intros _. rewrite get_standard_grav_parameter_alter.
  do 2 (apply bind_ext; intros ?). frame_load hosted.
  rewrite touched_a. reflexivity.
Qed.

Lemma CelestialBody_n_alter (s : store) (l : loc) :
  CelestialBody_n (alter f self s) l = CelestialBody_n s l.
Proof.
  unfold CelestialBody_n. frame_load me. rewrite keplers_law_n_from_a_alter.
  destruct (touched_fields l me) as (_ & _ & _ & _ & _ & ->).
  reflexivity.
Qed.

Lemma keplers_law_a_from_n_alter (s : store) (o : option loc) (l : loc) :
  keplers_law_a_from_n (alter f self s) o l = keplers_law_a_from_n s o l.
Proof.
  unfold keplers_law_a_from_n. rewrite check_if_direct_orbits_alter.
  apply bind_ext; intros _. rewrite get_standard_grav_parameter_alter.
  rewrite CelestialBody_n_alter. reflexivity.
Qed.

Lemma get_hill_radius_relevant_to_body_alter (s : store) (l : loc) :
  get_hill_radius_relevant_to_body (alter f self s) l =
  get_hill_radius_relevant_to_body s l.
Proof.
  unfold get_hill_radius_relevant_to_body. frame_load body.
  destruct (touched_fields l body) as (_ & _ & _ & _ & -> & ->).
  destruct (_ <=? _)%Z; [reflexivity |].
  frame_load j.
  destruct (touched_opt_fields (hosting_body body) j) as (-> & _ & _ & _ & _ & ->).
  assert (Ha : a (match hosting_body body with
                  | Some l0 => touch l0 j | None => j end) = a j)
    by (destruct (hosting_body body); [apply touched_a | reflexivity]).
  rewrite Ha. frame_load i.
  destruct (touched_opt_fields (hosting_body j) i) as (-> & _).
  reflexivity.
Qed.

Lemma get_critical_semi_major_axis_alter (s : store) (l : loc) :
  get_critical_semi_major_axis (alter f self s) l =
  get_critical_semi_major_axis s l.
Proof.
  unfold get_critical_semi_major_axis. frame_load body.
  destruct (touched_fields l body) as (_ & _ & _ & _ & -> & _).
  rewrite get_hill_radius_relevant_to_body_alter. reflexivity.
Qed.
End frame.

(** X5. No formula of the module reads the spin frequency: after
    [update_spin_frequency_omega], on any body and with any value, every
    function and property returns what it returned before. *)
Theorem spin_frequency_is_never_read (s : store) (self : loc) (w : R) :
  let s' := CelestialBody_update_spin_frequency_omega s self w in
  (forall o l, check_if_direct_orbits s' o l = check_if_direct_orbits s o l) /\
  (forall o l c, get_standard_grav_parameter s' o l c =
                 get_standard_grav_parameter s o l c) /\
  (forall o l, keplers_law_n_from_a s' o l = keplers_law_n_from_a s o l) /\
  (forall o l, keplers_law_a_from_n s' o l = keplers_law_a_from_n s o l) /\
  (forall l, get_hill_radius_relevant_to_body s' l =
             get_hill_radius_relevant_to_body s l) /\
  (forall l, get_critical_semi_major_axis s' l = get_critical_semi_major_axis s l) /\
  (forall l, get_roche_limit s' l = get_roche_limit s l) /\
  (forall a_0 a_c l, analytical_lifetime_one_tide s' a_0 a_c l =
                     analytical_lifetime_one_tide s a_0 a_c l) /\
  (forall l, get_a_derivative_factors_experimental s' l =
             get_a_derivative_factors_experimental s l) /\
  (forall l, CelestialBody_n s' l = CelestialBody_n s l) /\
  (forall l, CelestialBody_mu s' l = CelestialBody_mu s l) /\
  (forall o, CelestialBody_R s' o = CelestialBody_R s o) /\
  (forall o, CelestialBody_I s' o = CelestialBody_I s o).
Proof.
  unfold CelestialBody_update_spin_frequency_omega. cbv zeta.
  repeat split; intros.
  - apply check_if_direct_orbits_alter; reflexivity.
  - apply get_standard_grav_parameter_alter; reflexivity.
  - apply keplers_law_n_from_a_alter; reflexivity.
  - apply keplers_law_a_from_n_alter; reflexivity.
  - apply get_hill_radius_relevant_to_body_alter; reflexivity.
  - apply get_critical_semi_major_axis_alter; reflexivity.
  - apply get_roche_limit_alter; reflexivity.
  - apply analytical_lifetime_one_tide_alter; reflexivity.
  - apply get_a_derivative_factors_experimental_alter; reflexivity.
  - apply CelestialBody_n_alter; reflexivity.
  - apply CelestialBody_mu_alter; reflexivity.
  - apply CelestialBody_R_alter; reflexivity.
  - apply CelestialBody_I_alter; reflexivity.
Qed.

(** X6. The attribute [a] is read by the orbit frequency and by the Hill
    radius only: after [update_semi_major_axis_a], on any body and with any
    value, the orbit check, the gravitational parameter, the radius, the
    moment of inertia, the Roche limit, the one-tide lifetime and the
    rate factor return what they returned before. *)
Theorem semi_major_axis_is_read_by_few (s : store) (self : loc) (v : R) :
  let s' := CelestialBody_update_semi_major_axis_a s self v in
  (forall o l, check_if_direct_orbits s' o l = check_if_direct_orbits s o l) /\
  (forall o l c, get_standard_grav_parameter s' o l c =
                 get_standard_grav_parameter s o l c) /\
  (forall l, CelestialBody_mu s' l = CelestialBody_mu s l) /\
  (forall o, CelestialBody_R s' o = CelestialBody_R s o) /\
  (forall o, CelestialBody_I s' o = CelestialBody_I s o) /\
  (forall l, get_roche_limit s' l = get_roche_limit s l) /\
  (forall a_0 a_c l, analytical_lifetime_one_tide s' a_0 a_c l =
                     analytical_lifetime_one_tide s a_0 a_c l) /\
  (forall l, get_a_derivative_factors_experimental s' l =
             get_a_derivative_factors_experimental s l).
Proof.
  unfold CelestialBody_update_semi_major_axis_a. cbv zeta.
  repeat split; intros.
  - apply check_if_direct_orbits_alter; reflexivity.
  - apply get_standard_grav_parameter_alter; reflexivity.
  - apply CelestialBody_mu_alter; reflexivity.
  - apply CelestialBody_R_alter; reflexivity.
  - apply CelestialBody_I_alter; reflexivity.
  - apply get_roche_limit_alter; reflexivity.
  - apply analytical_lifetime_one_tide_alter; reflexivity.
  - apply get_a_derivative_factors_experimental_alter; reflexivity.
Qed.

(** ** Derived quantities on stores built through the class *)

Lemma physical_lookup (s : store) (l : loc) (b : CelestialBody) :
  physical s -> s !! l = Some b -> physical_body b.
Proof. intros Hp Hl. exact (Forall_lookup_1 _ _ _ _ Hp Hl). Qed.

Lemma CelestialBody_n_direct (s : store) (h l : loc) (bh b : CelestialBody)
    (sma : R) :
  s !! l = Some b -> hosting_body b = Some h -> s !! h = Some bh ->
  check_if_direct_orbits s (Some h) l = ret tt ->
  0 < mass b -> 0 < mass bh -> a b = Some sma -> 0 < sma ->
  CelestialBody_n s l =
    ret (Rpower (G * (mass bh + mass b)) (1 / 2) * Rpower sma (-3 / 2)).
Proof.
  intros Hl Hhost Hh Hcheck Hm Hmh Ha Hsma. unfold CelestialBody_n.
  rewrite (load_Some _ _ _ Hl), bind_ret, Hhost.
  rewrite (keplers_law_n_from_a_direct s h l bh b sma) by assumption.
  apply keplers_law_n_from_a_simple_pos; [assumption |].
  apply Rmult_lt_0_compat; [apply G_pos | lra].
Qed.

(** X7. On a body that is not a star, in a store built through the class
    with attributes in the ranges of the data model, the property [n]
    succeeds with [mu^(1/2) * a^(-3/2)] for [mu = G * (host mass + own mass)],
    and [keplers_law_a_from_n] on the body and its host gives back the
    body's semi-major axis. *)
Theorem orbit_frequency_of_hosted_body (s : store) (l : loc) (b : CelestialBody) :
  reachable s -> physical s -> s !! l = Some b -> hn b <> 1%Z ->
  exists h bh sma,
    hosting_body b = Some h /\ s !! h = Some bh /\ a b = Some sma /\
    CelestialBody_n s l =
      ([], Ok (Rpower (G * (mass bh + mass b)) (1 / 2) * Rpower sma (-3 / 2))) /\
    keplers_law_a_from_n s (Some h) l = ([], Ok sma).
Proof.
  intros Hs Hp Hl Hn.
  destruct (check_reachable s l b Hs Hl Hn) as (h & bh & Hhost & Hh & Hd & Hcheck).
  destruct (physical_lookup _ _ _ Hp Hl) as (Hm & _ & _ & _ & Ha).
  destruct (Ha Hn) as (sma & Hsma & Hpos).
  destruct (physical_lookup _ _ _ Hp Hh) as (Hmh & _).
  exists h, bh, sma. repeat (split; [assumption |]). split.
  - apply (CelestialBody_n_direct s h l bh b sma); assumption.
  - apply (keplers_law_a_from_n_returns_a s h l bh b sma); assumption.
Qed.

Lemma orbit_frequency_of_hosted_body_witness :
  exists h bh sma,
    hosting_body moon = Some h /\ system !! h = Some bh /\ a moon = Some sma /\
    CelestialBody_n system 2%nat =
      ([], Ok (Rpower (G * (mass bh + mass moon)) (1 / 2) * Rpower sma (-3 / 2))) /\
    keplers_law_a_from_n system (Some h) 2%nat = ([], Ok sma).
Proof.
  apply (orbit_frequency_of_hosted_body system 2%nat moon
           system_reachable system_physical eq_refl).
  discriminate.
Defined.

(** X8. On a star of a store built through the class the formulas that
    need a host fail: [n] and [keplers_law_a_from_n] with the [ValueError]
    about stars, [mu] with an [AttributeError]; and, the star having
    positive mass and density, so do [get_roche_limit],
    [get_a_derivative_factors_experimental] and, for positive axes,
    [analytical_lifetime_one_tide], each with an [AttributeError]. *)
Theorem star_has_no_orbit_quantities (s : store) (l : loc) (b : CelestialBody)
    (a_0 a_c : R) :
  reachable s -> s !! l = Some b -> hn b = 1%Z ->
  0 < mass b -> 0 < rho b -> 0 < a_0 -> 0 < a_c ->
  CelestialBody_n s l = ([], Raise (ValueError StarHosted)) /\
  (forall o, keplers_law_a_from_n s o l = ([], Raise (ValueError StarHosted))) /\
  CelestialBody_mu s l = ([], Raise AttributeError) /\
  get_roche_limit s l = ([], Raise AttributeError) /\
  get_a_derivative_factors_experimental s l = ([], Raise AttributeError) /\
  analytical_lifetime_one_tide s a_0 a_c l = ([], Raise AttributeError).
Proof.
  intros Hs Hl Hn Hm Hr Ha0 Hac.
  assert (Hhost : hosting_body b = None).
  { pose proof (reachable_well_hosted _ Hs _ _ Hl) as Hb. unfold adjacent_host in Hb.
    destruct (decide (hn b = 1%Z)); [assumption | contradiction]. }
  assert (Hcheck : forall o, check_if_direct_orbits s o l =
                             raise (ValueError StarHosted)).
  { intros o. rewrite (check_if_direct_orbits_eq _ _ _ _ Hl), Hn. reflexivity. }
  repeat split.
  - unfold CelestialBody_n, keplers_law_n_from_a.
    rewrite (load_Some _ _ _ Hl), bind_ret, Hcheck. reflexivity.
  - intros o. unfold keplers_law_a_from_n. rewrite Hcheck. reflexivity.
  - unfold CelestialBody_mu, get_standard_grav_parameter.
    rewrite (load_Some _ _ _ Hl), bind_ret, Hhost. reflexivity.
  - unfold get_roche_limit.
    rewrite (load_Some _ _ _ Hl), bind_ret.
    rewrite (CelestialBody_R_physical _ _ _ Hl Hm Hr), bind_ret, Hhost. reflexivity.
  - unfold get_a_derivative_factors_experimental.
    rewrite (load_Some _ _ _ Hl), bind_ret, Hhost. reflexivity.
  - unfold analytical_lifetime_one_tide.
    rewrite (load_Some _ _ _ Hl), bind_ret.
    rewrite pypow_pos by assumption. rewrite bind_ret.
    rewrite pydiv_nonzero by lra. rewrite bind_ret.
    rewrite pypow_pos by (apply Rdiv_lt_0_compat; assumption).
    rewrite bind_ret, Hhost. reflexivity.
Qed.

Lemma star_has_no_orbit_quantities_witness :
  CelestialBody_n system 0%nat = ([], Raise (ValueError StarHosted)) /\
  (forall o, keplers_law_a_from_n system o 0%nat =
             ([], Raise (ValueError StarHosted))) /\
  CelestialBody_mu system 0%nat = ([], Raise AttributeError) /\
  get_roche_limit system 0%nat = ([], Raise AttributeError) /\
  get_a_derivative_factors_experimental system 0%nat = ([], Raise AttributeError) /\
  analytical_lifetime_one_tide system 1 2 0%nat = ([], Raise AttributeError).
Proof.
  apply (star_has_no_orbit_quantities system 0%nat sun 1 2 system_reachable eq_refl);
    try reflexivity; cbn; lra.
Defined.

(** X9. The property [mu] skips the orbit check, as its docstring says it
    may: on a body that is not a star, in a store built through the class,
    the check passes, so [mu] returns [G * (host mass + own mass)] and
    [get_standard_grav_parameter] with the check switched on returns the
    same. *)
Theorem mu_needs_no_check (s : store) (l : loc) (b : CelestialBody) :
  reachable s -> s !! l = Some b -> hn b <> 1%Z ->
  exists h bh,
    hosting_body b = Some h /\ s !! h = Some bh /\
    CelestialBody_mu s l = ([], Ok (G * (mass bh + mass b))) /\
    get_standard_grav_parameter s (Some h) l true = ([], Ok (G * (mass bh + mass b))).
Proof.
  intros Hs Hl Hn.
  destruct (check_reachable s l b Hs Hl Hn) as (h & bh & Hhost & Hh & _ & Hcheck).
  exists h, bh. repeat (split; [assumption |]). split.
  - unfold CelestialBody_mu. rewrite (load_Some _ _ _ Hl), bind_ret, Hhost.
    apply get_standard_grav_parameter_unchecked; assumption.
  - unfold get_standard_grav_parameter.
    rewrite Hcheck, bind_ret, (load_opt_Some _ _ _ Hh), bind_ret.
    rewrite (load_Some _ _ _ Hl), bind_ret. reflexivity.
Qed.

Lemma mu_needs_no_check_witness :
  exists h bh,
    hosting_body moon = Some h /\ system !! h = Some bh /\
    CelestialBody_mu system 2%nat = ([], Ok (G * (mass bh + mass moon))) /\
    get_standard_grav_parameter system (Some h) 2%nat true =
      ([], Ok (G * (mass bh + mass moon))).
Proof.
  apply (mu_needs_no_check system 2%nat moon system_reachable eq_refl).
  discriminate.
Defined.

(** ** Derived quantities after an update *)

Lemma lookup_touched (f : CelestialBody -> CelestialBody) (s : store)
    (self l : loc) (b : CelestialBody) :
  s !! l = Some b -> alter f self s !! l = Some (touched f self l b).
Proof. apply lookup_alter_Some. Qed.

Lemma touched_self (f : CelestialBody -> CelestialBody) (self : loc)
    (b : CelestialBody) :
  touched f self self b = f b.
Proof. unfold touched. rewrite decide_True by reflexivity. reflexivity. Qed.

(** X10. The orbit frequency is computed from the current state: after
    [update_semi_major_axis_a] with a positive value [v] on a body that is
    not a star, its [n] is [mu^(1/2) * v^(-3/2)], with the [mu] it had. *)
Theorem orbit_frequency_follows_update (s : store) (l : loc) (b : CelestialBody)
    (v : R) :
  reachable s -> physical s -> s !! l = Some b -> hn b <> 1%Z -> 0 < v ->
  exists h bh,
    hosting_body b = Some h /\ s !! h = Some bh /\
    CelestialBody_n (CelestialBody_update_semi_major_axis_a s l v) l =
      ([], Ok (Rpower (G * (mass bh + mass b)) (1 / 2) * Rpower v (-3 / 2))).
Proof.
  intros Hs Hp Hl Hn Hv.
  destruct (check_reachable s l b Hs Hl Hn) as (h & bh & Hhost & Hh & _ & Hcheck).
  destruct (physical_lookup _ _ _ Hp Hl) as (Hm & _).
  destruct (physical_lookup _ _ _ Hp Hh) as (Hmh & _).
  exists h, bh. repeat (split; [assumption |]).
  unfold CelestialBody_update_semi_major_axis_a.
  set (f := set_a (Some v)).
  pose proof (lookup_touched f s l l b Hl) as Hl'. rewrite touched_self in Hl'.
  pose proof (lookup_touched f s l h bh Hh) as Hh'.
  assert (Hmass : mass (touched f l h bh) = mass bh).
  { unfold touched. case_decide; reflexivity. }
  rewrite (CelestialBody_n_direct _ h l (touched f l h bh) (f b) v Hl' Hhost Hh');
    try assumption; try reflexivity.
  - rewrite Hmass. reflexivity.
  - rewrite check_if_direct_orbits_alter by reflexivity. assumption.
  - rewrite Hmass. assumption.
Qed.

Lemma orbit_frequency_follows_update_witness :
  exists h bh,
    hosting_body moon = Some h /\ system !! h = Some bh /\
    CelestialBody_n (CelestialBody_update_semi_major_axis_a system 2%nat 120) 2%nat =
      ([], Ok (Rpower (G * (mass bh + mass moon)) (1 / 2) * Rpower 120 (-3 / 2))).
Proof.
  apply (orbit_frequency_follows_update system 2%nat moon 120
           system_reachable system_physical eq_refl); [discriminate | lra].
Defined.

(** X11. Bodies are shared, not copied: after [update_semi_major_axis_a]
    with value [v] on the host of a body of level 3 or more, the Hill
    radius relevant to that body is [v * (j.mass / (3 * i.mass))^(1/3)];
    an update of the axis of any other body leaves it as it was. *)
Theorem hill_radius_follows_host_update (s : store) (l lj : loc)
    (body : CelestialBody) (v : R) :
  reachable s -> physical s -> s !! l = Some body -> (2 < hn body)%Z ->
  hosting_body body = Some lj ->
  exists j li i,
    s !! lj = Some j /\ hosting_body j = Some li /\ s !! li = Some i /\
    get_hill_radius_relevant_to_body
      (CelestialBody_update_semi_major_axis_a s lj v) l =
      ([], Ok (v * Rpower (mass j / (3 * mass i)) (1 / 3))) /\
    (forall self, self <> lj ->
       get_hill_radius_relevant_to_body
         (CelestialBody_update_semi_major_axis_a s self v) l =
       get_hill_radius_relevant_to_body s l).
Proof.
  intros Hs Hp Hl Hn Hhost.
  destruct (grandparent_exists s l body Hs Hl Hn)
    as (lj' & j & li & i & Hhost' & Hj & Hhj & Hi & Hnj).
  assert (lj' = lj) by congruence. subst lj'.
  destruct (physical_lookup _ _ _ Hp Hj) as (Hmj & _ & _ & _ & Haj).
  destruct (Haj Hnj) as (a_j & Ha & _).
  destruct (physical_lookup _ _ _ Hp Hi) as (Hmi & _).
  exists j, li, i. repeat (split; [assumption |]).
  unfold CelestialBody_update_semi_major_axis_a. split.
  - set (f := set_a (Some v)).
    pose proof (lookup_touched f s lj l body Hl) as Hl'.
    pose proof (lookup_touched f s lj lj j Hj) as Hj'. rewrite touched_self in Hj'.
    pose proof (lookup_touched f s lj li i Hi) as Hi'.
    assert (Hb : hn (touched f lj l body) = hn body /\
                 hosting_body (touched f lj l body) = hosting_body body).
    { unfold touched. case_decide; split; reflexivity. }
    assert (Hmass : mass (touched f lj li i) = mass i).
    { unfold touched. case_decide; reflexivity. }
    destruct Hb as [Hb1 Hb2].
    rewrite (get_hill_radius_physical _ l lj li (touched f lj l body) (f j)
               (touched f lj li i) v Hl');
      [unfold spec_hillSphereRadius; rewrite Hmass; reflexivity | idtac ..];
      rewrite ?Hb1, ?Hb2, ?Hmass; first [assumption | reflexivity].
  - intros self Hne.
    set (f := set_a (Some v)).
    pose proof (lookup_touched f s self l body Hl) as Hl'.
    pose proof (lookup_touched f s self lj j Hj) as Hj'.
    pose proof (lookup_touched f s self li i Hi) as Hi'.
    assert (Hjj : touched f self lj j = j).
    { unfold touched. rewrite decide_False by congruence. reflexivity. }
    rewrite Hjj in Hj'.
    assert (Hb : hn (touched f self l body) = hn body /\
                 hosting_body (touched f self l body) = hosting_body body).
    { unfold touched. case_decide; split; reflexivity. }
    assert (Hmass : mass (touched f self li i) = mass i).
    { unfold touched. case_decide; reflexivity. }
    destruct Hb as [Hb1 Hb2].
    rewrite (get_hill_radius_physical _ l lj li (touched f self l body) j
               (touched f self li i) a_j Hl');
      [| rewrite ?Hb1, ?Hb2, ?Hmass; assumption ..].
    unfold spec_hillSphereRadius. rewrite Hmass.
    symmetry. apply (get_hill_radius_physical s l lj li body j i a_j); assumption.
Qed.

Lemma hill_radius_follows_host_update_witness :
  exists j li i,
    system !! 1%nat = Some j /\ hosting_body j = Some li /\ system !! li = Some i /\
    get_hill_radius_relevant_to_body
      (CelestialBody_update_semi_major_axis_a system 1%nat 1200) 2%nat =
      ([], Ok (1200 * Rpower (mass j / (3 * mass i)) (1 / 3))) /\
    (forall self, self <> 1%nat ->
       get_hill_radius_relevant_to_body
         (CelestialBody_update_semi_major_axis_a system self 1200) 2%nat =
       get_hill_radius_relevant_to_body system 2%nat).
Proof.
  apply (hill_radius_follows_host_update system 2%nat 1%nat moon 1200
           system_reachable system_physical eq_refl); [cbn; lia | reflexivity].
Defined.

(** ** Hill radius and critical axis, further *)

Lemma deep_system_reachable : reachable deep_system.
Proof.
  exact (reachable_init _ 1 1 (Some 1) 1 1 1 "x" "deeper" 5 (Some 3%nat) 0 _ _
           system_reachable eq_refl).
Qed.

Lemma deep_system_physical : physical deep_system.
Proof.
  unfold physical, deep_system.
  repeat apply Forall_cons_2; try apply Forall_nil_2;
    unfold physical_body; cbn; repeat split; try lra;
    intros Hn; first [ now (exfalso; apply Hn) | eexists; split; [reflexivity | lra] ].
Qed.

(** The Hill radius on a physical store built through the class. *)
Lemma get_hill_radius_reachable (s : store) (l : loc) (body : CelestialBody) :
  reachable s -> physical s -> s !! l = Some body -> (2 < hn body)%Z ->
  exists lj j li i a_j,
    hosting_body body = Some lj /\ s !! lj = Some j /\
    hosting_body j = Some li /\ s !! li = Some i /\ a j = Some a_j /\
    0 < a_j /\ 0 < mass j /\ 0 < mass i /\
    get_hill_radius_relevant_to_body s l = ret (spec_hillSphereRadius a_j j i).
Proof.
  intros Hs Hp Hl Hn.
  destruct (grandparent_exists s l body Hs Hl Hn)
    as (lj & j & li & i & Hhost & Hj & Hhj & Hi & Hnj).
  destruct (physical_lookup _ _ _ Hp Hj) as (Hmj & _ & _ & _ & Haj).
  destruct (Haj Hnj) as (a_j & Ha & Hpos).
  destruct (physical_lookup _ _ _ Hp Hi) as (Hmi & _).
  exists lj, j, li, i, a_j. repeat (split; [assumption |]).
  apply (get_hill_radius_physical s l lj li body); assumption.
Qed.

Lemma spec_hillSphereRadius_pos (a_j : R) (j i : CelestialBody) :
  0 < a_j -> 0 < spec_hillSphereRadius a_j j i.
Proof. intros Ha. apply Rmult_lt_0_compat; [assumption | apply Rpower_pos]. Qed.

(** X12. The critical semi-major axis stops at level 4 where the Hill radius
    does not: for a body of level 5 or more, in a store built through the
    class with attributes in the ranges of the data model,
    [get_hill_radius_relevant_to_body] returns the Hill radius, while
    [get_critical_semi_major_axis] warns and raises the [ValueError] about
    the missing ancestor. *)
Theorem critical_axis_stops_at_level_four (s : store) (l : loc)
    (body : CelestialBody) :
  reachable s -> physical s -> s !! l = Some body -> (4 < hn body)%Z ->
  (exists lj j li i a_j,
     hosting_body body = Some lj /\ s !! lj = Some j /\
     hosting_body j = Some li /\ s !! li = Some i /\ a j = Some a_j /\
     get_hill_radius_relevant_to_body s l =
       ([], Ok (spec_hillSphereRadius a_j j i))) /\
  get_critical_semi_major_axis s l =
    ([hill_warning], Raise (ValueError (NoGrandparent (hn body)))).
Proof.
  intros Hs Hp Hl Hn. split.
  - destruct (get_hill_radius_reachable s l body Hs Hp Hl ltac:(lia))
      as (lj & j & li & i & a_j & H1 & H2 & H3 & H4 & H5 & _ & _ & _ & H6).
    exists lj, j, li, i, a_j. repeat (split; [assumption |]). exact H6.
  - unfold get_critical_semi_major_axis.
    rewrite (load_Some _ _ _ Hl), bind_ret.
    destruct (Z.eqb_spec (hn body) 3) as [? | _]; [lia |].
    destruct (Z.eqb_spec (hn body) 4) as [? | _]; [lia |].
    reflexivity.
Qed.

Lemma critical_axis_stops_at_level_four_witness :
  (exists lj j li i a_j,
     hosting_body deeper = Some lj /\ deep_system !! lj = Some j /\
     hosting_body j = Some li /\ deep_system !! li = Some i /\ a j = Some a_j /\
     get_hill_radius_relevant_to_body deep_system 4%nat =
       ([], Ok (spec_hillSphereRadius a_j j i))) /\
  get_critical_semi_major_axis deep_system 4%nat =
    ([hill_warning], Raise (ValueError (NoGrandparent 5))).
Proof.
  apply (critical_axis_stops_at_level_four deep_system 4%nat deeper
           deep_system_reachable deep_system_physical eq_refl).
  cbn. lia.
Defined.

(** X13. For a body of level 3 or 4, in a store built through the class
    with attributes in the ranges of the data model, the critical
    semi-major axis is positive and strictly inside the Hill radius. *)
Theorem critical_axis_inside_hill_radius (s : store) (l : loc)
    (body : CelestialBody) :
  reachable s -> physical s -> s !! l = Some body ->
  hn body = 3%Z \/ hn body = 4%Z ->
  exists r_h a_crit : R,
    get_hill_radius_relevant_to_body s l = ([], Ok r_h) /\
    get_critical_semi_major_axis s l = ([], Ok a_crit) /\
    0 < a_crit /\ a_crit < r_h.
Proof.
  intros Hs Hp Hl Hn.
  destruct (get_hill_radius_reachable s l body Hs Hp Hl ltac:(lia))
    as (lj & j & li & i & a_j & _ & _ & _ & _ & _ & Ha & _ & _ & Hhill).
  pose proof (spec_hillSphereRadius_pos a_j j i Ha) as Hpos.
  exists (spec_hillSphereRadius a_j j i).
  exists ((if (hn body =? 3)%Z then 0.4 else 0.33) * spec_hillSphereRadius a_j j i).
  split; [exact Hhill |]. split.
  - unfold get_critical_semi_major_axis.
    rewrite (load_Some _ _ _ Hl), bind_ret.
    destruct Hn as [-> | ->]; cbn [Z.eqb Pos.eqb];
      rewrite bind_ret, Hhill, bind_ret; reflexivity.
  - destruct (hn body =? 3)%Z; split; nra.
Qed.

Lemma critical_axis_inside_hill_radius_witness :
  exists r_h a_crit : R,
    get_hill_radius_relevant_to_body system 3%nat = ([], Ok r_h) /\
    get_critical_semi_major_axis system 3%nat = ([], Ok a_crit) /\
    0 < a_crit /\ a_crit < r_h.
Proof.
  apply (critical_axis_inside_hill_radius system 3%nat submoon
           system_reachable system_physical eq_refl).
  right. reflexivity.
Defined.

(** ** Roche limit, radius and moment of inertia, further *)

(** X14. The Roche limit depends on the host's mass and the hosted body's
    density only: for positive masses and density [get_roche_limit] returns
    [(9 * host.mass / (4 * pi * hosted.rho))^(1/3)], in which the hosted
    body's mass does not occur. *)
Theorem roche_limit_closed_form (s : store) (hosted l : loc) (j i : CelestialBody) :
  s !! hosted = Some j -> hosting_body j = Some l -> s !! l = Some i ->
  0 < mass j -> 0 < rho j -> 0 < mass i ->
  get_roche_limit s hosted =
    ([], Ok (Rpower (9 * mass i / (4 * PI * rho j)) (1 / 3))).
Proof.
  intros Hj Hhost Hi Hm Hr Hmi. pose proof PI_RGT_0 as Hpi.
  rewrite (get_roche_limit_physical s hosted l j i) by assumption.
  unfold spec_rocheLimit, spec_meanRadius.
  rewrite Rpower_mult_distr.
  - replace (3 * mass j / (rho j * (4 * PI)) * (3 * mass i / mass j))
      with (9 * mass i / (4 * PI * rho j)) by (field; repeat split; lra).
    reflexivity.
  - apply Rdiv_lt_0_compat; [lra |]. apply Rmult_lt_0_compat; lra.
  - apply Rdiv_lt_0_compat; lra.
Qed.

Lemma roche_limit_closed_form_witness :
  get_roche_limit system 2%nat =
    ([], Ok (Rpower (9 * mass earth / (4 * PI * rho moon)) (1 / 3))).
Proof.
  apply (roche_limit_closed_form system 2%nat 1%nat moon earth);
    try reflexivity; cbn; lra.
Defined.

(** X15. The derived radius is the radius of the sphere that has the
    body's mass at its density: for positive mass and density the property
    [R] returns a positive [r] with [rho * (4/3 * pi * r^3) = mass], and the
    property [I] returns [2/5 * mass * r^2]. *)
Theorem radius_matches_mass_and_density (s : store) (l : loc) (b : CelestialBody) :
  s !! l = Some b -> 0 < mass b -> 0 < rho b ->
  exists r : R,
    CelestialBody_R s (Some l) = ([], Ok r) /\ 0 < r /\
    rho b * (4 / 3 * PI * r ^ 3) = mass b /\
    CelestialBody_I s (Some l) = ([], Ok (2 / 5 * mass b * r ^ 2)).
Proof.
  intros Hl Hm Hr. pose proof PI_RGT_0 as Hpi.
  exists (spec_meanRadius b).
  pose proof (spec_meanRadius_pos b) as Hpos.
  split; [apply CelestialBody_R_physical; assumption |].
  split; [exact Hpos |]. split.
  - unfold spec_meanRadius in *.
    set (x := 3 * mass b / (rho b * (4 * PI))) in *.
    assert (Hx : 0 < x).
    { apply Rdiv_lt_0_compat; [lra |]. apply Rmult_lt_0_compat; lra. }
    rewrite <- (Rpower_pow 3 _ Hpos), Rpower_mult.
    replace (1 / 3 * INR 3) with 1 by (simpl; lra).
    rewrite Rpower_1 by assumption. unfold x. field. split; lra.
  - unfold CelestialBody_I.
    rewrite (load_opt_Some _ _ _ Hl), bind_ret.
    rewrite (CelestialBody_R_physical _ _ _ Hl Hm Hr), bind_ret.
    rewrite pypow_pos by assumption. rewrite bind_ret.
    replace 2 with (INR 2) at 2 by (simpl; lra).
    rewrite Rpower_pow by assumption. reflexivity.
Qed.

Lemma radius_matches_mass_and_density_witness :
  exists r : R,
    CelestialBody_R system (Some 1%nat) = ([], Ok r) /\ 0 < r /\
    rho earth * (4 / 3 * PI * r ^ 3) = mass earth /\
    CelestialBody_I system (Some 1%nat) = ([], Ok (2 / 5 * mass earth * r ^ 2)).
Proof.
  apply (radius_matches_mass_and_density system 1%nat earth eq_refl); cbn; lra.
Defined.

(** ** The one-tide lifetime, further *)

Lemma Rpower_quotient (x y e : R) :
  0 < x -> 0 < y -> Rpower (x / y) e = Rpower x e / Rpower y e.
Proof.
  intros Hx Hy. unfold Rdiv.
  rewrite <- Rpower_mult_distr by (try assumption; apply Rinv_0_lt_compat; assumption).
  f_equal. unfold Rpower. rewrite ln_Rinv by assumption.
  replace (e * - ln y) with (- (e * ln y)) by ring.
  apply exp_Ropp.
Qed.

(** The left-hand side is a difference of powers. *)
Lemma spec_lifetime_lhs_difference (a0 aTarget : R) :
  0 < a0 -> 0 < aTarget ->
  spec_lifetime_lhs a0 aTarget =
    2 / 13 * (Rpower aTarget (13 / 2) - Rpower a0 (13 / 2)).
Proof.
  intros H0 HT. unfold spec_lifetime_lhs.
  rewrite Rpower_quotient by assumption.
  pose proof (Rpower_pos aTarget (13 / 2)) as Hp.
  field. lra.
Qed.

(** X16. The sign of the one-tide lifetime follows the direction of the
    migration: for positive axes and a hosted body and host with positive
    attributes, the lifetime is positive when the target axis [a_c] is
    larger than [a_0] and negative when it is smaller. *)
Theorem analytical_lifetime_sign (s : store) (hosted l : loc)
    (j i : CelestialBody) (a_0 a_c : R) :
  s !! hosted = Some j -> hosting_body j = Some l -> s !! l = Some i ->
  0 < mass j -> 0 < mass i -> 0 < rho i -> 0 < k i -> 0 < Q i ->
  0 < a_0 -> 0 < a_c ->
  exists T : R,
    analytical_lifetime_one_tide s a_0 a_c hosted = ([], Ok T) /\
    (a_0 < a_c -> 0 < T) /\ (a_c < a_0 -> T < 0).
Proof.
  intros Hj Hhost Hi Hmj Hmi Hri Hki HQi Ha0 Hac.
  exists (spec_analyticalOneTideLifetime a_0 a_c j i).
  split; [apply (analytical_lifetime_one_tide_physical _ _ l); assumption |].
  pose proof (spec_lifetime_rhs_pos j i Hki HQi Hmj) as Hrhs.
  unfold spec_analyticalOneTideLifetime.
  rewrite spec_lifetime_lhs_difference by assumption.
  split; intros Hlt.
  - apply Rdiv_lt_0_compat; [| assumption].
    pose proof (Rlt_Rpower_l a_0 a_c (13 / 2) ltac:(lra) (conj Ha0 Hlt)). lra.
  - pose proof (Rlt_Rpower_l a_c a_0 (13 / 2) ltac:(lra) (conj Hac Hlt)) as Hp.
    apply Ropp_lt_cancel. rewrite Ropp_0.
    replace (- (2 / 13 * (Rpower a_c (13 / 2) - Rpower a_0 (13 / 2)) /
                spec_lifetime_rhs j i))
      with (2 / 13 * (Rpower a_0 (13 / 2) - Rpower a_c (13 / 2)) /
            spec_lifetime_rhs j i) by (field; lra).
    apply Rdiv_lt_0_compat; [lra | assumption].
Qed.

Lemma analytical_lifetime_sign_witness :
  exists T : R,
    analytical_lifetime_one_tide system 100 200 2%nat = ([], Ok T) /\
    (100 < 200 -> 0 < T) /\ (200 < 100 -> T < 0).
Proof.
  apply (analytical_lifetime_sign system 2%nat 1%nat moon earth 100 200);
    try reflexivity; cbn; lra.
Defined.

(** X17. Lifetimes add up along the way: for positive axes [a_0], [a_1],
    [a_2] the lifetime from [a_0] to [a_1] plus the lifetime from [a_1] to
    [a_2] is the lifetime from [a_0] to [a_2]; in particular the way back
    takes the negated time. *)
Theorem analytical_lifetime_additive (s : store) (hosted l : loc)
    (j i : CelestialBody) (a_0 a_1 a_2 : R) :
  s !! hosted = Some j -> hosting_body j = Some l -> s !! l = Some i ->
  0 < mass j -> 0 < mass i -> 0 < rho i -> 0 < k i -> 0 < Q i ->
  0 < a_0 -> 0 < a_1 -> 0 < a_2 ->
  exists T01 T12 T02 T10 : R,
    analytical_lifetime_one_tide s a_0 a_1 hosted = ([], Ok T01) /\
    analytical_lifetime_one_tide s a_1 a_2 hosted = ([], Ok T12) /\
    analytical_lifetime_one_tide s a_0 a_2 hosted = ([], Ok T02) /\
    analytical_lifetime_one_tide s a_1 a_0 hosted = ([], Ok T10) /\
    T01 + T12 = T02 /\ T10 = - T01.
Proof.
  intros Hj Hhost Hi Hmj Hmi Hri Hki HQi Ha0 Ha1 Ha2.
  exists (spec_analyticalOneTideLifetime a_0 a_1 j i),
         (spec_analyticalOneTideLifetime a_1 a_2 j i),
         (spec_analyticalOneTideLifetime a_0 a_2 j i),
         (spec_analyticalOneTideLifetime a_1 a_0 j i).
  repeat (split; [apply (analytical_lifetime_one_tide_physical _ _ l); assumption |]).
  pose proof (spec_lifetime_rhs_pos j i Hki HQi Hmj) as Hrhs.
  unfold spec_analyticalOneTideLifetime.
  rewrite !spec_lifetime_lhs_difference by assumption.
  split; field; lra.
Qed.

Lemma analytical_lifetime_additive_witness :
  exists T01 T12 T02 T10 : R,
    analytical_lifetime_one_tide system 100 200 2%nat = ([], Ok T01) /\
    analytical_lifetime_one_tide system 200 300 2%nat = ([], Ok T12) /\
    analytical_lifetime_one_tide system 100 300 2%nat = ([], Ok T02) /\
    analytical_lifetime_one_tide system 200 100 2%nat = ([], Ok T10) /\
    T01 + T12 = T02 /\ T10 = - T01.
Proof.
  apply (analytical_lifetime_additive system 2%nat 1%nat moon earth 100 200 300);
    try reflexivity; cbn; lra.
Defined.

(** X18. A target axis of zero always divides by zero: whatever the start
    axis and the body, [analytical_lifetime_one_tide] with [a_c = 0] raises
    [ZeroDivisionError], before the host is looked at. *)
Theorem analytical_lifetime_zero_target (s : store) (hosted : loc)
    (j : CelestialBody) (a_0 : R) :
  s !! hosted = Some j ->
  analytical_lifetime_one_tide s a_0 0 hosted = ([], Raise ZeroDivisionError).
Proof.
  intros Hj. unfold analytical_lifetime_one_tide.
  rewrite (load_Some _ _ _ Hj), bind_ret.
  rewrite pypow_zero by lra. rewrite bind_ret.
  rewrite pydiv_zero. reflexivity.
Qed.

Lemma analytical_lifetime_zero_target_witness :
  analytical_lifetime_one_tide system 100 0 0%nat = ([], Raise ZeroDivisionError).
Proof. exact (analytical_lifetime_zero_target system 0%nat sun 100 eq_refl). Defined.

(** ** The rate factor *)

(** X19. The factor of the semi-major-axis derivative and the denominator
    of the one-tide lifetime differ by the hosted body's share in the
    gravitational parameter: for a hosted body and host with positive
    attributes, [get_a_derivative_factors_experimental] (and its other name
    [get_a_factors]) returns the [rhs] of the lifetime times
    [(1 + hosted.mass / host.mass)^(1/2)], a positive number larger than
    that [rhs]. *)
Theorem rate_factor_and_lifetime_denominator (s : store) (hosted l : loc)
    (j i : CelestialBody) :
  s !! hosted = Some j -> hosting_body j = Some l -> s !! l = Some i ->
  0 < mass j -> 0 < mass i -> 0 < rho i -> 0 < k i -> 0 < Q i ->
  exists c : R,
    get_a_derivative_factors_experimental s hosted = ([], Ok c) /\
    get_a_factors s hosted = ([], Ok c) /\
    c = spec_lifetime_rhs j i * Rpower (1 + mass j / mass i) (1 / 2) /\
    spec_lifetime_rhs j i < c.
Proof.
  intros Hj Hhost Hi Hmj Hmi Hri Hki HQi.
  pose proof G_pos as HG.
  pose proof (spec_meanRadius_pos i) as HR.
  pose proof (spec_lifetime_rhs_pos j i Hki HQi Hmj) as Hrhs.
  assert (Hmu : 0 < G * (mass i + mass j)) by (apply Rmult_lt_0_compat; lra).
  assert (Hratio : 0 < 1 + mass j / mass i).
  { pose proof (Rdiv_lt_0_compat _ _ Hmj Hmi). lra. }
  assert (Heq : 3 * spec_meanRadius i ^ 5 * Rpower (G * (mass i + mass j)) (1 / 2) *
                k i * mass j / (Q i * mass i) =
                spec_lifetime_rhs j i * Rpower (1 + mass j / mass i) (1 / 2)).
  { unfold spec_lifetime_rhs.
    replace (G * (mass i + mass j))
      with (G / mass i * (1 + mass j / mass i) * (mass i * mass i))
      by (field; lra).
    assert (Hgm : 0 < G / mass i) by (apply Rdiv_lt_0_compat; lra).
    rewrite <- !Rpower_mult_distr;
      [| first [assumption | apply Rmult_lt_0_compat; assumption] ..].
    set (root := Rpower (mass i) (1 / 2)).
    assert (Hroot : root * root = mass i).
    { unfold root. rewrite <- Rpower_plus.
      replace (1 / 2 + 1 / 2) with 1 by lra. apply Rpower_1. assumption. }
    replace (Rpower (G / mass i) (1 / 2) * Rpower (1 + mass j / mass i) (1 / 2) *
             (root * root))
      with (Rpower (G / mass i) (1 / 2) * Rpower (1 + mass j / mass i) (1 / 2) *
            mass i) by (rewrite Hroot; reflexivity).
    field. lra. }
  exists (spec_lifetime_rhs j i * Rpower (1 + mass j / mass i) (1 / 2)).
  assert (Hcall : get_a_derivative_factors_experimental s hosted =
                  ret (spec_lifetime_rhs j i * Rpower (1 + mass j / mass i) (1 / 2))).
  { unfold get_a_derivative_factors_experimental.
    rewrite (load_Some _ _ _ Hj), bind_ret, Hhost.
    rewrite (CelestialBody_R_physical _ _ _ Hi Hmi Hri), bind_ret.
    rewrite pypow_pos by assumption. rewrite bind_ret.
    unfold CelestialBody_mu.
    rewrite (load_Some _ _ _ Hj), bind_ret, Hhost.
    rewrite (get_standard_grav_parameter_unchecked _ _ _ _ _ Hi Hj), bind_ret.
    rewrite pypow_pos by assumption. rewrite bind_ret.
    rewrite (load_opt_Some _ _ _ Hi), bind_ret.
    rewrite pydiv_nonzero by (apply Rgt_not_eq, Rmult_lt_0_compat; assumption).
    replace 5 with (INR 5) by (simpl; lra).
    rewrite Rpower_pow by assumption.
    rewrite Heq. reflexivity. }
  split; [exact Hcall |]. split; [exact Hcall |]. split; [reflexivity |].
  assert (H1 : 1 < Rpower (1 + mass j / mass i) (1 / 2)).
  { rewrite <- (Rpower_base_one (1 / 2)) at 1.
    apply Rlt_Rpower_l; [lra |].
    pose proof (Rdiv_lt_0_compat _ _ Hmj Hmi). lra. }
  nra.
Qed.

Lemma rate_factor_and_lifetime_denominator_witness :
  exists c : R,
    get_a_derivative_factors_experimental system 2%nat = ([], Ok c) /\
    get_a_factors system 2%nat = ([], Ok c) /\
    c = spec_lifetime_rhs moon earth * Rpower (1 + mass moon / mass earth) (1 / 2) /\
    spec_lifetime_rhs moon earth < c.
Proof.
  apply (rate_factor_and_lifetime_denominator system 2%nat 1%nat moon earth);
    try reflexivity; cbn; lra.
Defined.

(** ** The shape of a store built through the class *)

Lemma host_older_reachable (s : store) :
  reachable s ->
  forall l b h, s !! l = Some b -> hosting_body b = Some h -> (h < l)%nat.
Proof.
  induction 1 as [| s m d sma w kk q di nm hh host im l0 s' _ IH Hinit
                  | s self v _ IH | s self v _ IH]; intros l b h Hl Hh.
  - discriminate.
  - apply init_Ok_inv in Hinit as [_ [[_ ->] | (_ & lh & bh & _ & Hlh & _ & ->)]];
      apply lookup_snoc_Some in Hl as [[_ Hl] | [-> <-]];
      try (eapply IH; eassumption).
    + discriminate.
    + injection Hh as <-. eapply lookup_lt_Some. eassumption.
  - unfold CelestialBody_update_semi_major_axis_a in Hl.
    rewrite list_lookup_alter in Hl. case_decide as Heq.
    + subst. destruct (s !! l) as [b0 |] eqn:Hb0; [| discriminate].
      injection Hl as <-. eapply IH; eassumption.
    + eapply IH; eassumption.
  - unfold CelestialBody_update_spin_frequency_omega in Hl.
    rewrite list_lookup_alter in Hl. case_decide as Heq.
    + subst. destruct (s !! l) as [b0 |] eqn:Hb0; [| discriminate].
      injection Hl as <-. eapply IH; eassumption.
    + eapply IH; eassumption.
Qed.

(** X20. The hosts form no cycle: in a store built through the class the
    host of a body was constructed before it, so it sits at a strictly
    smaller location; in particular no body hosts itself and no two bodies
    host each other. *)
Theorem host_was_constructed_before (s : store) (l h : loc) (b : CelestialBody) :
  reachable s -> s !! l = Some b -> hosting_body b = Some h ->
  (h < l)%nat /\ h <> l /\
  (forall bh, s !! h = Some bh -> hosting_body bh <> Some l).
Proof.
  intros Hs Hl Hh. pose proof (host_older_reachable s Hs l b h Hl Hh) as Hlt.
  split; [assumption |]. split; [lia |].
  intros bh Hbh Hback.
  pose proof (host_older_reachable s Hs h bh l Hbh Hback). lia.
Qed.

Lemma host_was_constructed_before_witness :
  (1 < 2)%nat /\ 1%nat <> 2%nat /\
  (forall bh, system !! 1%nat = Some bh -> hosting_body bh <> Some 2%nat).
Proof.
  exact (host_was_constructed_before system 2%nat 1%nat moon
           system_reachable eq_refl eq_refl).
Defined.

(** X21. Every body hangs below a star: in a store built through the class,
    following [hosting_body] from any body reaches a body of level 1 after
    at most as many steps as the body's location. *)
Theorem host_chain_ends_at_a_star (s : store) (l : loc) (b : CelestialBody) :
  reachable s -> s !! l = Some b ->
  exists (n : nat) (r : loc) (star : CelestialBody),
    (n <= l)%nat /\ ancestor s n l = Some r /\
    s !! r = Some star /\ hn star = 1%Z.
Proof.
  intros Hs. revert b. induction l as [l IH] using lt_wf_ind. intros b Hl.
  destruct (Z.eq_dec (hn b) 1%Z) as [H1 | H1].
  - exists 0%nat, l, b. repeat split; [lia | assumption | assumption].
  - destruct (check_reachable s l b Hs Hl H1) as (h & bh & Hhost & Hh & _ & _).
    pose proof (host_older_reachable s Hs l b h Hl Hhost) as Hlt.
    destruct (IH h Hlt bh Hh) as (n & r & star & Hn & Hanc & Hr & Hstar).
    exists (S n), r, star. repeat split; try assumption; [lia |].
    cbn. rewrite Hl, Hhost. assumption.
Qed.

Lemma host_chain_ends_at_a_star_witness :
  exists (n : nat) (r : loc) (star : CelestialBody),
    (n <= 3)%nat /\ ancestor system n 3%nat = Some r /\
    system !! r = Some star /\ hn star = 1%Z.
Proof.
  exact (host_chain_ends_at_a_star system 3%nat submoon system_reachable eq_refl).
Defined.

(** X22. The two update methods compose as assignments do: a second
    [update_semi_major_axis_a] (or [update_spin_frequency_omega]) of a body
    overrides the first, an update of [a] and an update of [omega] can be
    swapped, on the same body or on two, and updates of two different
    bodies can be swapped. *)
Theorem updates_compose (s : store) (l l' : loc) (v v' : R) :
  CelestialBody_update_semi_major_axis_a
    (CelestialBody_update_semi_major_axis_a s l v) l v' =
    CelestialBody_update_semi_major_axis_a s l v' /\
  CelestialBody_update_spin_frequency_omega
    (CelestialBody_update_spin_frequency_omega s l v) l v' =
    CelestialBody_update_spin_frequency_omega s l v' /\
  CelestialBody_update_spin_frequency_omega
    (CelestialBody_update_semi_major_axis_a s l v) l' v' =
    CelestialBody_update_semi_major_axis_a
      (CelestialBody_update_spin_frequency_omega s l' v') l v /\
  (l <> l' ->
   CelestialBody_update_semi_major_axis_a
     (CelestialBody_update_semi_major_axis_a s l v) l' v' =
     CelestialBody_update_semi_major_axis_a
       (CelestialBody_update_semi_major_axis_a s l' v') l v).
Proof.
  unfold CelestialBody_update_semi_major_axis_a,
    CelestialBody_update_spin_frequency_omega.
  split; [| split; [| split]].
  - rewrite list_alter_alter_eq. apply list_alter_ext; reflexivity.
  - rewrite list_alter_alter_eq. apply list_alter_ext; reflexivity.
  - destruct (decide (l' = l)) as [-> | Hne].
    + rewrite !list_alter_alter_eq. apply list_alter_ext; reflexivity.
    + apply list_alter_alter_ne. assumption.
  - intros Hne. apply list_alter_alter_ne. congruence.
Qed.

(** ** Time units, further *)

Lemma rint_close (x : R) : Rabs (IZR (rint x) - x) <= 1 / 2.
Proof.
  pose proof (Rplus_Int_part_frac_part x) as Hx.
  pose proof (base_fp x) as [H0 H1].
  unfold rint.
  destruct (Rlt_dec (frac_part x) (1 / 2)) as [Hlt | Hge].
  - apply Rabs_le. lra.
  - destruct (Rlt_dec (1 / 2) (frac_part x)) as [Hgt | Hle].
    + rewrite plus_IZR. apply Rabs_le. lra.
    + destruct (Z.even (Int_part x)); [| rewrite plus_IZR]; apply Rabs_le; lra.
Qed.

Lemma rint_IZR (z : Z) : rint (IZR z) = z.
Proof.
  destruct (Int_part_frac_part_spec (IZR z) z 0 ltac:(lra) ltac:(lra)) as [Hi Hf].
  unfold rint. rewrite <- Hf, <- Hi.
  destruct (Rlt_dec 0 (1 / 2)); [reflexivity | lra].
Qed.

Lemma np_round_two_close (x : R) : Rabs (np_round x 2 - x) <= 0.005.
Proof.
  unfold np_round. pose proof (rint_close (x * 10 ^ 2)) as H.
  replace (IZR (rint (x * 10 ^ 2)) / 10 ^ 2 - x)
    with ((IZR (rint (x * 10 ^ 2)) - x * 10 ^ 2) / 100) by (simpl; field).
  unfold Rdiv. rewrite Rabs_mult, (Rabs_right (/ 100)) by lra. lra.
Qed.

(** X23. For the three units [turn_seconds_to_years] returns a float within
    [0.005] of the exact number of years, of millions of years, or of
    billions of years; and a whole number of years is returned exactly. *)
Theorem turn_seconds_to_years_accuracy (seconds : R) :
  (exists y, turn_seconds_to_years seconds "Vanilla" = ([], Ok (Some y)) /\
             Rabs (y - seconds / (3600 * 24 * 365)) <= 0.005) /\
  (exists y, turn_seconds_to_years seconds "Millions" = ([], Ok (Some y)) /\
             Rabs (y - seconds / (3600 * 24 * 365) / 10 ^ 6) <= 0.005) /\
  (exists y, turn_seconds_to_years seconds "Billions" = ([], Ok (Some y)) /\
             Rabs (y - seconds / (3600 * 24 * 365) / 10 ^ 9) <= 0.005) /\
  (forall years : Z,
     turn_seconds_to_years (IZR years * (3600 * 24 * 365)) "Vanilla" =
       ([], Ok (Some (IZR years)))).
Proof.
  destruct (turn_seconds_to_years_units seconds) as (HV & HM & HB).
  split; [| split; [| split]].
  - eexists. split; [exact HV | apply np_round_two_close].
  - eexists. split; [exact HM | apply np_round_two_close].
  - eexists. split; [exact HB | apply np_round_two_close].
  - intros years.
    destruct (turn_seconds_to_years_units (IZR years * (3600 * 24 * 365)))
      as (HV' & _).
    rewrite HV'. do 3 f_equal. unfold np_round.
    replace (IZR years * (3600 * 24 * 365) / (3600 * 24 * 365) * 10 ^ 2)
      with (IZR (years * 100)) by (rewrite mult_IZR; simpl; field).
    rewrite rint_IZR, mult_IZR. simpl. field.
Qed.

(** ** The catalogue reader *)

Lemma string_of_uint_scan (d : Decimal.uint) (t : string) :
  replace_first_point (NilEmpty.string_of_uint d ++ t) =
    (NilEmpty.string_of_uint d ++ replace_first_point t)%string /\
  before_point (NilEmpty.string_of_uint d ++ t) =
    (NilEmpty.string_of_uint d ++ before_point t)%string /\
  after_point (NilEmpty.string_of_uint d ++ t) = after_point t.
Proof.
  induction d as [| d (IH1 & IH2 & IH3) | d (IH1 & IH2 & IH3)
                  | d (IH1 & IH2 & IH3) | d (IH1 & IH2 & IH3)
                  | d (IH1 & IH2 & IH3) | d (IH1 & IH2 & IH3)
                  | d (IH1 & IH2 & IH3) | d (IH1 & IH2 & IH3)
                  | d (IH1 & IH2 & IH3) | d (IH1 & IH2 & IH3)];
    cbn; rewrite ?IH1, ?IH2, ?IH3; repeat split; reflexivity.
Qed.

Lemma string_of_uint_length (d : Decimal.uint) :
  String.length (NilEmpty.string_of_uint d) = Decimal.nb_digits d.
Proof. induction d; cbn; congruence. Qed.

Lemma uint_of_string_digits_app (d : Decimal.uint) (t : string) (dt : Decimal.uint) :
  NilEmpty.uint_of_string t = Some dt ->
  exists d', NilEmpty.uint_of_string (NilEmpty.string_of_uint d ++ t) = Some d'.
Proof.
  intros Ht. induction d as [| d [d' IH] | d [d' IH] | d [d' IH] | d [d' IH]
                             | d [d' IH] | d [d' IH] | d [d' IH] | d [d' IH]
                             | d [d' IH] | d [d' IH]];
    cbn; [eauto | rewrite IH; cbn; eauto ..].
Qed.

Lemma isdigit_digits_app (d1 d2 : Decimal.uint) :
  d1 <> Decimal.Nil \/ d2 <> Decimal.Nil ->
  isdigit (NilEmpty.string_of_uint d1 ++ NilEmpty.string_of_uint d2) = true.
Proof.
  intros Hne.
  destruct (uint_of_string_digits_app d1 _ d2 (NilEmpty.usu d2)) as [d' Hd'].
  unfold isdigit. rewrite Hd'.
  destruct (NilEmpty.string_of_uint d1 ++ NilEmpty.string_of_uint d2)%string eqn:E;
    [| reflexivity].
  exfalso. destruct d1; cbn in E; try discriminate.
  destruct d2; cbn in E; try discriminate. destruct Hne; congruence.
Qed.

Lemma digits_value_string_of_uint (d : Decimal.uint) :
  digits_value (NilEmpty.string_of_uint d) = N.of_uint d.
Proof. unfold digits_value. rewrite NilEmpty.usu. reflexivity. Qed.

Lemma turn_to_float_decimal (d1 d2 : Decimal.uint) :
  d1 <> Decimal.Nil \/ d2 <> Decimal.Nil ->
  turn_to_float_if_possible
    (PyStr (NilEmpty.string_of_uint d1 ++ "." ++ NilEmpty.string_of_uint d2)) =
    ret (PyFloat (IZR (Z.of_N (N.of_uint d1)) +
                  IZR (Z.of_N (N.of_uint d2)) / 10 ^ Decimal.nb_digits d2)).
Proof.
  intros Hne. unfold turn_to_float_if_possible, float_of_decimal.
  destruct (string_of_uint_scan d1 ("." ++ NilEmpty.string_of_uint d2))
    as (-> & -> & ->).
  cbn [replace_first_point before_point after_point append Ascii.eqb Bool.eqb].
  rewrite isdigit_digits_app by assumption.
  replace (NilEmpty.string_of_uint d1 ++ "")%string with (NilEmpty.string_of_uint d1)
    by (induction (NilEmpty.string_of_uint d1); cbn; congruence).
  rewrite !digits_value_string_of_uint, string_of_uint_length. reflexivity.
Qed.

Lemma turn_to_float_integer (d : Decimal.uint) :
  d <> Decimal.Nil ->
  turn_to_float_if_possible (PyStr (NilEmpty.string_of_uint d)) =
    ret (PyFloat (IZR (Z.of_N (N.of_uint d)))).
Proof.
  intros Hne. unfold turn_to_float_if_possible, float_of_decimal.
  assert (Hnil : (NilEmpty.string_of_uint d ++ "")%string = NilEmpty.string_of_uint d)
    by (induction (NilEmpty.string_of_uint d); cbn; congruence).
  destruct (string_of_uint_scan d "") as (H1 & H2 & H3).
  cbn [replace_first_point before_point after_point] in H1, H2, H3.
  rewrite Hnil in H1, H2, H3. rewrite H1, H2, H3.
  pose proof (isdigit_digits_app d Decimal.Nil (or_introl Hne)) as Hd.
  cbn [NilEmpty.string_of_uint] in Hd. rewrite Hnil in Hd. rewrite Hd.
  rewrite digits_value_string_of_uint. cbn. do 3 f_equal. lra.
Qed.

Lemma to_uint_not_nil (n : N) : N.to_uint n <> Decimal.Nil.
Proof.
  pose proof (Unsigned.to_of (N.to_uint n)) as H.
  rewrite Unsigned.of_to in H. rewrite H.
  unfold Decimal.unorm. destruct (Decimal.nzhead (N.to_uint n)); discriminate.
Qed.

(** X24. Strings that write a decimal number become floats: for digit
    sequences [d1] and [d2], [turn_to_float_if_possible] turns the string
    [d1] (not empty) into the number it writes and the string [d1.d2] (one
    of the two not empty) into that number plus [d2 / 10^(digits of d2)];
    in particular the decimal writing of every natural number [n] comes
    back as the float [n]. *)
Theorem decimal_strings_become_floats :
  (forall d : Decimal.uint, d <> Decimal.Nil ->
     turn_to_float_if_possible (PyStr (NilEmpty.string_of_uint d)) =
       ([], Ok (PyFloat (IZR (Z.of_N (N.of_uint d)))))) /\
  (forall d1 d2 : Decimal.uint, d1 <> Decimal.Nil \/ d2 <> Decimal.Nil ->
     turn_to_float_if_possible
       (PyStr (NilEmpty.string_of_uint d1 ++ "." ++ NilEmpty.string_of_uint d2)) =
       ([], Ok (PyFloat (IZR (Z.of_N (N.of_uint d1)) +
                         IZR (Z.of_N (N.of_uint d2)) / 10 ^ Decimal.nb_digits d2)))) /\
  (forall n : N,
     turn_to_float_if_possible (PyStr (NilEmpty.string_of_uint (N.to_uint n))) =
       ([], Ok (PyFloat (IZR (Z.of_N n))))).
Proof.
  split; [exact turn_to_float_integer |]. split; [exact turn_to_float_decimal |].
  intros n. rewrite (turn_to_float_integer _ (to_uint_not_nil n)).
  rewrite Unsigned.of_to. reflexivity.
Qed.

Example turn_to_float_12_5 :
  turn_to_float_if_possible (PyStr "12.50") = ([], Ok (PyFloat (12 + 50 / 10 ^ 2))).
Proof.
  unfold turn_to_float_if_possible, float_of_decimal. cbn. reflexivity.
Qed.

Lemma uint_of_char_not_digit (c : ascii) (o : option Decimal.uint) :
  (nat_of_ascii c < 48 \/ 57 < nat_of_ascii c)%nat -> uint_of_char c o = None.
Proof.
  intros Hc. destruct o as [d |]; [| reflexivity].
  destruct c as [[] [] [] [] [] [] [] []]; try reflexivity;
    vm_compute in Hc; lia.
Qed.

Lemma isdigit_with_other_character (u v : string) (c : ascii) :
  (nat_of_ascii c < 48 \/ 57 < nat_of_ascii c)%nat ->
  isdigit (u ++ String c v) = false.
Proof.
  intros Hc.
  assert (H : NilEmpty.uint_of_string (u ++ String c v) = None).
  { induction u as [| a u IH]; cbn.
    - apply uint_of_char_not_digit. assumption.
    - rewrite IH. reflexivity. }
  unfold isdigit. rewrite H. destruct (u ++ String c v)%string; reflexivity.
Qed.

Lemma replace_first_point_keeps (u v : string) (c : ascii) :
  c <> "."%char ->
  exists u' v', replace_first_point (u ++ String c v) = (u' ++ String c v')%string.
Proof.
  intros Hc. induction u as [| a u (u' & v' & IH)]; cbn.
  - destruct (Ascii.eqb_spec c "."); [contradiction |].
    exists EmptyString, (replace_first_point v). reflexivity.
  - destruct (Ascii.eqb_spec a ".").
    + exists u, v. reflexivity.
    + exists (String a u'), v'. cbn. rewrite IH. reflexivity.
Qed.

Lemma replace_first_point_second_point (u v w : string) :
  exists u' v',
    replace_first_point (u ++ "." ++ v ++ "." ++ w) = (u' ++ String "." v')%string.
Proof.
  induction u as [| a u (u' & v' & IH)]; cbn.
  - exists v, w. reflexivity.
  - destruct (Ascii.eqb_spec a ".").
    + exists u, (v ++ "." ++ w)%string. reflexivity.
    + exists (String a u'), v'. cbn. cbn in IH. rewrite IH. reflexivity.
Qed.

(** X25. Everything else stays text: [turn_to_float_if_possible] returns
    unchanged a string that holds a character other than a digit and the
    point, such as a sign, an exponent letter or a blank, and a string with
    two points. (The character is an ASCII one, given by its code.) *)
Theorem other_strings_stay_text (u v w : string) (c : ascii) :
  c <> "."%char -> (nat_of_ascii c < 48 \/ 57 < nat_of_ascii c)%nat ->
  turn_to_float_if_possible (PyStr (u ++ String c v)) =
    ([], Ok (PyStr (u ++ String c v))) /\
  turn_to_float_if_possible (PyStr (u ++ "." ++ v ++ "." ++ w)) =
    ([], Ok (PyStr (u ++ "." ++ v ++ "." ++ w))).
Proof.
  intros Hp Hc. unfold turn_to_float_if_possible. split.
  - destruct (replace_first_point_keeps u v c Hp) as (u' & v' & ->).
    rewrite isdigit_with_other_character by assumption. reflexivity.
  - destruct (replace_first_point_second_point u v w) as (u' & v' & ->).
    rewrite isdigit_with_other_character by (left; vm_compute; lia). reflexivity.
Qed.

Lemma other_strings_stay_text_witness :
  turn_to_float_if_possible (PyStr "-1.5") = ([], Ok (PyStr "-1.5")) /\
  turn_to_float_if_possible (PyStr ".1.5.2") = ([], Ok (PyStr ".1.5.2")).
Proof.
  apply (other_strings_stay_text "" "1.5" "2" "-");
    [discriminate | left; vm_compute; lia].
Defined.





